(** * Runtime-directory resolution and conmon version gate

    A shallow embedding of
    [vendor/github.com/containers/common/pkg/config/defaultLibpodConfig.go]:
    [defaultTmpDir], [getRuntimeDir] and [probeConmon], together with the
    parts of the Go standard library and of [github.com/pkg/errors] that
    these functions call ([strconv.Atoi], [regexp.FindStringSubmatch] for the
    one pattern used, [utf8.DecodeRuneInString], [filepath.Join],
    [errors.Wrap], [sync.Once.Do]).

    Go strings are byte sequences; they are modelled by [string], whose
    characters are the 256 byte values.  Go's [int] is the 64-bit integer of
    the platforms the package is built for and is modelled by [Z] with the
    range checks written out where the code can observe them. *)

From Stdlib Require Import ZArith List String Ascii Bool Lia DecimalString.
Import ListNotations.

Local Open Scope string_scope.
Local Open Scope Z_scope.

(** ** Bytes and strings *)

Definition byte_val (c : ascii) : Z := Z.of_N (N_of_ascii c).

Definition is_digit (c : ascii) : bool :=
  (48 <=? byte_val c) && (byte_val c <=? 57).

Fixpoint drop (n : nat) (s : string) : string :=
  match n, s with
  | O, _ => s
  | S n', String _ s' => drop n' s'
  | S _, EmptyString => EmptyString
  end.

Fixpoint take (n : nat) (s : string) : string :=
  match n, s with
  | S n', String c s' => String c (take n' s')
  | _, _ => EmptyString
  end.

Fixpoint has_prefix (p s : string) : bool :=
  match p, s with
  | EmptyString, _ => true
  | String a p', String b s' => Ascii.eqb a b && has_prefix p' s'
  | String _ _, EmptyString => false
  end.

(** ** Errors

    A Go [error] value is [option error]: [None] is [nil].  Errors that come
    back from the operating system or from the child process have a type of
    their own, [oserror]; the package can only pass them on. *)

Inductive oserror : Type :=
| PathError (op path : string) (errno : Z)   (* *os.PathError *)
| ExecError (name : string) (errno : Z)      (* *exec.Error: binary not found *)
| ExitError (status : Z)                     (* *exec.ExitError *)
| IOError (errno : Z).                       (* failure copying the output *)

Inductive numerr : Type :=
| ErrSyntax
| ErrRange.

Inductive error : Type :=
| ErrConmonOutdated                          (* errors.New("outdated conmon version") *)
| ErrInvalidArg                              (* errors.New("invalid argument") *)
| errorString (msg : string)                 (* fmt.Errorf *)
| NumError (fn num : string) (e : numerr)    (* *strconv.NumError *)
| External (e : oserror)
| Wrapped (cause : error) (msg : string).    (* errors.Wrap / errors.Wrapf *)

(** [errors.Wrap] of [github.com/pkg/errors]: "If err is nil, Wrap returns
    nil." *)
Definition errors_Wrap (err : option error) (message : string) : option error :=
  match err with
  | None => None
  | Some e => Some (Wrapped e message)
  end.

Definition EEXIST : Z := 17.
Definition ENOTEMPTY : Z := 39.

(** [os.IsExist]: the underlying errno is EEXIST or ENOTEMPTY. *)
Definition os_IsExist (e : oserror) : bool :=
  match e with
  | PathError _ _ n => (n =? EEXIST) || (n =? ENOTEMPTY)
  | _ => false
  end.

(** ** Constants of the package *)

Definition _conmonMinMajorVersion : Z := 2.
Definition _conmonMinMinorVersion : Z := 0.
Definition _conmonMinPatchVersion : Z := 1.
Definition _conmonVersionFormatErr : string := "conmon version changed format".

(** ** strconv.Atoi

    An optional sign, then one or more decimal digits; anything else is a
    syntax error, and a value outside the 64-bit [int] is a range error. *)

Definition intSize : Z := 64.
Definition maxInt : Z := 2 ^ (intSize - 1) - 1.
Definition minInt : Z := - 2 ^ (intSize - 1).

Fixpoint parse_digits (acc : Z) (s : string) : option Z :=
  match s with
  | EmptyString => Some acc
  | String c s' =>
      if is_digit c then parse_digits (acc * 10 + (byte_val c - 48)) s'
      else None
  end.

Definition Atoi (s : string) : Z + error :=
  let syntaxError := inr (NumError "Atoi" s ErrSyntax) in
  let rangeError := inr (NumError "Atoi" s ErrRange) in
  match s with
  | EmptyString => syntaxError
  | String c0 rest =>
      let neg := Ascii.eqb c0 "-" in
      let body := if neg || Ascii.eqb c0 "+" then rest else s in
      match body with
      | EmptyString => syntaxError
      | _ =>
          match parse_digits 0 body with
          | None => syntaxError
          | Some n =>
              let v := if neg then - n else n in
              if (minInt <=? v) && (v <=? maxInt) then inl v else rangeError
          end
      end
  end.

(** ** utf8.DecodeRuneInString, width only

    The number of bytes the first rune of [s] occupies: 1 for ASCII and for
    every invalid or truncated encoding, otherwise 2 to 4. *)

Definition in_range (lo hi : Z) (c : ascii) : bool :=
  (lo <=? byte_val c) && (byte_val c <=? hi).

Definition is_cont (c : ascii) : bool := in_range 128 191 c.

Definition rune_width (s : string) : nat :=
  match s with
  | EmptyString => 0%nat
  | String s0 t =>
      let b := byte_val s0 in
      let two := in_range 194 223 s0 in
      let three := in_range 224 239 s0 in
      let four := in_range 240 244 s0 in
      let lo := if b =? 224 then 160 else if b =? 240 then 144 else 128 in
      let hi := if b =? 237 then 159 else if b =? 244 then 143 else 191 in
      if two || three || four then
        match t with
        | EmptyString => 1%nat
        | String s1 t1 =>
            if negb (in_range lo hi s1) then 1%nat
            else if two then 2%nat
            else
              match t1 with
              | EmptyString => 1%nat
              | String s2 t2 =>
                  if negb (is_cont s2) then 1%nat
                  else if three then 3%nat
                  else
                    match t2 with
                    | EmptyString => 1%nat
                    | String s3 _ => if is_cont s3 then 4%nat else 1%nat
                    end
              end
        end
      else 1%nat
  end.

(** ** The version pattern

    [^conmon version (?P<Major>\d+).(?P<Minor>\d+).(?P<Patch>\d+)]

    The pattern is a sequence of three kinds of item.  [Digits] is a
    capturing group around a greedy [\d+]; [AnyChar] is the unescaped [.],
    which matches any single rune except a newline. *)

Inductive item : Type :=
| Lit (s : string)
| Digits
| AnyChar.

Definition conmonPattern : list item :=
  [Lit "conmon version "; Digits; AnyChar; Digits; AnyChar; Digits].

Fixpoint digit_run (s : string) : nat :=
  match s with
  | String c s' => if is_digit c then S (digit_run s') else O
  | EmptyString => O
  end.

(** A greedy repetition that matched [k] characters at most tries the
    lengths [k], [k-1], ..., 1 in that order and keeps the first for which
    the rest of the pattern matches. *)
Fixpoint try_lengths {A} (f : nat -> option A) (k : nat) : option A :=
  match k with
  | O => None
  | S k' =>
      match f k with
      | Some r => Some r
      | None => try_lengths f k'
      end
  end.

(** Leftmost-first matching anchored at the start of [s], as a backtracking
    engine finds it.  The result is the captured groups and the number of
    bytes matched. *)
Fixpoint match_items (p : list item) (s : string) : option (list string * nat) :=
  match p with
  | [] => Some ([], O)
  | Lit l :: p' =>
      if has_prefix l s then
        match match_items p' (drop (String.length l) s) with
        | Some (caps, n) => Some (caps, (String.length l + n)%nat)
        | None => None
        end
      else None
  | AnyChar :: p' =>
      match s with
      | EmptyString => None
      | String c _ =>
          if Ascii.eqb c "010" then None
          else
            match match_items p' (drop (rune_width s) s) with
            | Some (caps, n) => Some (caps, (rune_width s + n)%nat)
            | None => None
            end
      end
  | Digits :: p' =>
      try_lengths
        (fun k =>
           match match_items p' (drop k s) with
           | Some (caps, n) => Some (take k s :: caps, (k + n)%nat)
           | None => None
           end)
        (digit_run s)
  end.

(** [regexp.FindStringSubmatch]: [nil] when there is no match, otherwise the
    whole match followed by one entry per capturing group. *)
Definition FindStringSubmatch (s : string) : list string :=
  match match_items conmonPattern s with
  | Some (caps, n) => take n s :: caps
  | None => []
  end.

(** ** fmt.Sprintf("%d", n) *)

Definition Sprintf_d (n : Z) : string := NilZero.string_of_int (Z.to_int n).

(** ** filepath.Join and filepath.Clean (Unix)

    [Clean] is computed on the slash-separated elements of the path: empty
    elements and [.] disappear, [..] removes the element before it, is
    dropped at the root, and is kept at the start of a relative path. *)

Fixpoint split_path (s : string) : list string :=
  match s with
  | EmptyString => [EmptyString]
  | String c s' =>
      if Ascii.eqb c "/" then EmptyString :: split_path s'
      else
        match split_path s' with
        | h :: t => String c h :: t
        | [] => [String c EmptyString]
        end
  end.

(** [stack] holds the elements written so far, last one first. *)
Fixpoint clean_elems (rooted : bool) (stack : list string) (elems : list string)
  : list string :=
  match elems with
  | [] => stack
  | e :: rest =>
      if (e =? "")%string || (e =? ".")%string then clean_elems rooted stack rest
      else if (e =? "..")%string then
        match stack with
        | top :: below =>
            if (top =? "..")%string
            then clean_elems rooted (if rooted then stack else e :: stack) rest
            else clean_elems rooted below rest
        | [] => clean_elems rooted (if rooted then [] else [e]) rest
        end
      else clean_elems rooted (e :: stack) rest
  end.

Definition strings_Join (elems : list string) (sep : string) : string :=
  String.concat sep elems.

Definition filepath_Clean (path : string) : string :=
  match path with
  | EmptyString => "."
  | String c _ =>
      let rooted := Ascii.eqb c "/" in
      let out := rev (clean_elems rooted [] (split_path path)) in
      if rooted then "/" ++ strings_Join out "/"
      else
        match out with
        | [] => "."
        | _ => strings_Join out "/"
        end
  end.

Fixpoint filepath_Join (elem : list string) : string :=
  match elem with
  | [] => ""
  | e :: rest =>
      if (e =? "")%string then filepath_Join rest
      else filepath_Clean (strings_Join elem "/")
  end.

(** ** File modes *)

Definition ModeSticky : Z := Z.shiftl 1 20.
Definition ModePerm : Z := 511.                      (* 0777 *)
Definition mode_0700 : Z := 448.                     (* 0700 *)

Record FileInfo : Type := mkFileInfo {
  Mode : Z;        (* os.FileMode, a uint32 *)
  Uid : Z          (* syscall.Stat_t.Uid, a uint32 *)
}.

(** [FileMode.Perm] *)
Definition Perm (m : Z) : Z := Z.land m ModePerm.

(** ** The operating system

    What the package asks of its environment.  [W] is the state of the world
    outside the process's own variables: environment, file system, installed
    programs.  Queries leave it as it is; [MkdirAll], [Mkdir], [Chmod] and
    running a command return the world they leave behind.
    [IsRootless] and [GetRootlessUID] are the two functions of the sibling
    package [unshare] that this file calls. *)

Class OS (W : Type) : Type := {
  Getenv : W -> string -> string;
  Geteuid : W -> Z;
  IsRootless : W -> bool;
  GetRootlessUID : W -> Z;
  MkdirAll : W -> string -> Z -> W * option oserror;
  Mkdir : W -> string -> Z -> W * option oserror;
  Chmod : W -> string -> Z -> W * option oserror;
  Stat : W -> string -> FileInfo + oserror;
  EvalSymlinks : W -> string -> string + oserror;
  Run : W -> string -> list string -> W * (string * option oserror)
}.

(** Every call that leaves the process is recorded. *)
Inductive Event : Type :=
| EvGetenv (key : string)
| EvGeteuid
| EvIsRootless
| EvGetRootlessUID
| EvMkdirAll (path : string) (perm : Z)
| EvMkdir (path : string) (perm : Z)
| EvChmod (path : string) (perm : Z)
| EvStat (path : string)
| EvEvalSymlinks (path : string)
| EvRun (name : string) (args : list string)
| EvDebugf (msg : string).

Definition is_fs_event (e : Event) : bool :=
  match e with
  | EvMkdirAll _ _ | EvMkdir _ _ | EvChmod _ _ | EvStat _ | EvEvalSymlinks _ => true
  | _ => false
  end.

Definition is_env_event (e : Event) : bool :=
  match e with
  | EvGetenv _ => true
  | _ => false
  end.

(** ** Process state and the state monad *)

Record State (W : Type) : Type := mkState {
  world : W;
  rootlessRuntimeDirOnce : bool;     (* sync.Once: has Do already run? *)
  rootlessRuntimeDir : string;
  trace : list Event
}.
Arguments mkState {W}.
Arguments world {W}.
Arguments rootlessRuntimeDirOnce {W}.
Arguments rootlessRuntimeDir {W}.
Arguments trace {W}.

(** A process starts with the zero values of its package variables. *)
Definition start {W} (w : W) : State W := mkState w false "" [].

Definition M (W A : Type) : Type := State W -> A * State W.

Definition ret {W A} (a : A) : M W A := fun st => (a, st).

Definition bind {W A B} (c : M W A) (k : A -> M W B) : M W B :=
  fun st => let (a, st') := c st in k a st'.

Declare Scope go_scope.
Delimit Scope go_scope with go.
Notation "x <- c ;; k" := (bind c (fun x => k))
  (at level 61, c at next level, right associativity) : go_scope.
Notation "c ;; k" := (bind c (fun _ => k))
  (at level 61, right associativity) : go_scope.

Local Open Scope go_scope.

(** ** The program *)

Section Program.

Context {W : Type} `{OS W}.

Definition emit (e : Event) : M W unit :=
  fun st => (tt, mkState (world st) (rootlessRuntimeDirOnce st)
                         (rootlessRuntimeDir st) (trace st ++ [e])).

(** A call that only reads the world. *)
Definition query {A} (e : Event) (f : W -> A) : M W A :=
  fun st => (f (world st), snd (emit e st)).

(** A call that may change the world. *)
Definition command {A} (e : Event) (f : W -> W * A) : M W A :=
  fun st =>
    let (w', a) := f (world st) in
    (a, mkState w' (rootlessRuntimeDirOnce st) (rootlessRuntimeDir st)
                (trace st ++ [e])).

Definition os_Getenv (key : string) : M W string :=
  query (EvGetenv key) (fun w => Getenv w key).

Definition os_Geteuid : M W Z := query EvGeteuid Geteuid.

Definition unshare_IsRootless : M W bool := query EvIsRootless IsRootless.

Definition unshare_GetRootlessUID : M W Z :=
  query EvGetRootlessUID GetRootlessUID.

Definition os_MkdirAll (path : string) (perm : Z) : M W (option oserror) :=
  command (EvMkdirAll path perm) (fun w => MkdirAll w path perm).

Definition os_Mkdir (path : string) (perm : Z) : M W (option oserror) :=
  command (EvMkdir path perm) (fun w => Mkdir w path perm).

Definition os_Chmod (path : string) (perm : Z) : M W (option oserror) :=
  command (EvChmod path perm) (fun w => Chmod w path perm).

Definition os_Stat (path : string) : M W (FileInfo + oserror) :=
  query (EvStat path) (fun w => Stat w path).

Definition filepath_EvalSymlinks (path : string) : M W (string + oserror) :=
  query (EvEvalSymlinks path) (fun w => EvalSymlinks w path).

Definition exec_Run (name : string) (args : list string)
  : M W (string * option oserror) :=
  command (EvRun name args) (fun w => Run w name args).

Definition logrus_Debugf (msg : string) : M W unit := emit (EvDebugf msg).

(** [os.TempDir] on Unix: [$TMPDIR], or [/tmp] when that is empty. *)
Definition os_TempDir : M W string :=
  dir <- os_Getenv "TMPDIR" ;;
  ret (if (dir =? "")%string then "/tmp" else dir).

Definition set_rootlessRuntimeDir (dir : string) : M W unit :=
  fun st => (tt, mkState (world st) (rootlessRuntimeDirOnce st) dir (trace st)).

(** [rootlessRuntimeDirOnce.Do(f)]: [f] runs on the first call only.  The
    function literal that [getRuntimeDir] passes assigns to the local
    variable [rootlessRuntimeDirError] of the calling activation; its model
    returns the value it leaves in that variable, and [dflt] is the value the
    variable keeps when the literal does not run. *)
Definition Once_Do {A} (dflt : A) (f : M W A) : M W A :=
  fun st =>
    if rootlessRuntimeDirOnce st then (dflt, st)
    else
      let (a, st') := f st in
      (a, mkState (world st') true (rootlessRuntimeDir st') (trace st')).

(** The test both candidate directories go through (lines 185-186 and
    195-196): [Geteuid] is only reached when [Stat] succeeded. *)
Definition stat_owned_0700 (tmpDir : string) : M W bool :=
  st <- os_Stat tmpDir ;;
  match st with
  | inr _ => ret false
  | inl fi =>
      euid <- os_Geteuid ;;
      ret ((Uid fi =? euid) && (Perm (Mode fi) =? mode_0700))
  end.

(** The function literal of [getRuntimeDir] (lines 177-214). *)
Definition getRuntimeDir_func : M W (option error) :=
  runtimeDir <- os_Getenv "XDG_RUNTIME_DIR" ;;
  u <- unshare_GetRootlessUID ;;
  let uid := Sprintf_d u in
  runtimeDir <-
    (if (runtimeDir =? "")%string then
       let tmpDir := filepath_Join ["/run"; "user"; uid] in
       err <- os_MkdirAll tmpDir mode_0700 ;;
       match err with
       | Some _ => logrus_Debugf ("unable to make temp dir " ++ tmpDir)
       | None => ret tt
       end ;;
       ok <- stat_owned_0700 tmpDir ;;
       ret (if ok then tmpDir else runtimeDir)
     else ret runtimeDir) ;;
  runtimeDir <-
    (if (runtimeDir =? "")%string then
       tmp <- os_TempDir ;;
       let tmpDir := filepath_Join [tmp; "run-" ++ uid] in
       err <- os_MkdirAll tmpDir mode_0700 ;;
       match err with
       | Some _ => logrus_Debugf ("unable to make temp dir " ++ tmpDir)
       | None => ret tt
       end ;;
       ok <- stat_owned_0700 tmpDir ;;
       ret (if ok then tmpDir else runtimeDir)
     else ret runtimeDir) ;;
  if (runtimeDir =? "")%string then
    home <- os_Getenv "HOME" ;;
    if (home =? "")%string then
      ret (Some (errorString "neither XDG_RUNTIME_DIR nor HOME was set non-empty"))
    else
      resolvedHome <- filepath_EvalSymlinks home ;;
      match resolvedHome with
      | inr err => ret (errors_Wrap (Some (External err)) ("cannot resolve " ++ home))
      | inl resolvedHome =>
          set_rootlessRuntimeDir (filepath_Join [resolvedHome; "rundir"]) ;;
          ret None
      end
  else
    set_rootlessRuntimeDir runtimeDir ;;
    ret None.

Definition get_rootlessRuntimeDir : M W string :=
  fun st => (rootlessRuntimeDir st, st).

Definition getRuntimeDir : M W (string * option error) :=
  rootlessRuntimeDirError <- Once_Do None getRuntimeDir_func ;;
  match rootlessRuntimeDirError with
  | Some e => ret ("", Some e)
  | None =>
      dir <- get_rootlessRuntimeDir ;;
      ret (dir, None)
  end.

Definition defaultTmpDir : M W (string * option error) :=
  rootless <- unshare_IsRootless ;;
  if negb rootless then ret ("/var/run/libpod", None)
  else
    r <- getRuntimeDir ;;
    match snd r with
    | Some e => ret ("", Some e)
    | None =>
        let libpodRuntimeDir := filepath_Join [fst r; "libpod"] in
        err <- os_Mkdir libpodRuntimeDir (Z.lor mode_0700 ModeSticky) ;;
        match err with
        | Some e =>
            if negb (os_IsExist e) then
              ret ("", errors_Wrap (Some (External e))
                                   ("cannot mkdir " ++ libpodRuntimeDir))
            else
              err' <- os_Chmod libpodRuntimeDir (Z.lor mode_0700 ModeSticky) ;;
              match err' with
              | Some e' =>
                  ret ("", errors_Wrap (Some (External e'))
                         ("could not set sticky bit on " ++ libpodRuntimeDir))
              | None => ret (filepath_Join [libpodRuntimeDir; "tmp"], None)
              end
        | None => ret (filepath_Join [libpodRuntimeDir; "tmp"], None)
        end
    end.

(** Lines 232-271 of [probeConmon]: what happens to the captured output once
    the command has run.  [err] is the variable of that name, as [cmd.Run]
    left it. *)
Definition probeConmon_check (err : option error) (out : string) : option error :=
  let matches := FindStringSubmatch out in
  if negb (Nat.eqb (List.length matches) 4) then
    errors_Wrap err _conmonVersionFormatErr
  else
    match Atoi (nth 1 matches "") with
    | inr err => errors_Wrap (Some err) _conmonVersionFormatErr
    | inl major =>
        if major <? _conmonMinMajorVersion then Some ErrConmonOutdated
        else if major >? _conmonMinMajorVersion then None
        else
          match Atoi (nth 2 matches "") with
          | inr err => errors_Wrap (Some err) _conmonVersionFormatErr
          | inl minor =>
              if minor <? _conmonMinMinorVersion then Some ErrConmonOutdated
              else if minor >? _conmonMinMinorVersion then None
              else
                match Atoi (nth 3 matches "") with
                | inr err => errors_Wrap (Some err) _conmonVersionFormatErr
                | inl patch =>
                    if patch <? _conmonMinPatchVersion then Some ErrConmonOutdated
                    else if patch >? _conmonMinPatchVersion then None
                    else None
                end
          end
    end.

Definition probeConmon (conmonBinary : string) : M W (option error) :=
  r <- exec_Run conmonBinary ["--version"] ;;
  let out := fst r in
  let err := option_map External (snd r) in
  match err with
  | Some _ => ret err
  | None => ret (probeConmon_check err out)
  end.

End Program.

(** ** Vocabulary of the specification *)

(** The "version format changed" error: an error wrapped with
    [_conmonVersionFormatErr]. *)
Definition is_VersionFormatErr (r : option error) : bool :=
  match r with
  | Some (Wrapped _ msg) => (msg =? _conmonVersionFormatErr)%string
  | _ => false
  end.

(** A captured group of the pattern: one or more decimal digits. *)
Fixpoint all_digits (s : string) : bool :=
  match s with
  | EmptyString => true
  | String c s' => is_digit c && all_digits s'
  end.

Definition digit_group (g : string) : Prop :=
  g <> "" /\ all_digits g = true.

(** [Regexp.NumSubexp]: the number of capturing groups. *)
Fixpoint NumSubexp (p : list item) : nat :=
  match p with
  | [] => O
  | Digits :: p' => S (NumSubexp p')
  | _ :: p' => NumSubexp p'
  end.

(** Lexicographic order on version triples. *)
Definition triple_le (a b : Z * Z * Z) : Prop :=
  let '(a1, a2, a3) := a in
  let '(b1, b2, b3) := b in
  a1 < b1 \/ (a1 = b1 /\ (a2 < b2 \/ (a2 = b2 /\ a3 <= b3))).

Definition conmonMinVersion : Z * Z * Z :=
  (_conmonMinMajorVersion, _conmonMinMinorVersion, _conmonMinPatchVersion).

Section Vocabulary.

Context {W : Type} `{OS W}.

(** The directory of step 2: [/run/user/<uid>]. *)
Definition userRunDir (uid : Z) : string :=
  filepath_Join ["/run"; "user"; Sprintf_d uid].

(** What [os.TempDir] returns in world [w]. *)
Definition TempDir (w : W) : string :=
  if (Getenv w "TMPDIR" =? "")%string then "/tmp" else Getenv w "TMPDIR".

(** The directory of step 3: [<tmp>/run-<uid>]. *)
Definition tmpRunDir (tmp : string) (uid : Z) : string :=
  filepath_Join [tmp; "run-" ++ Sprintf_d uid].

(** The test of lines 186 and 196 on the answer of [Stat]. *)
Definition usableb (w : W) (dir : string) : bool :=
  match Stat w dir with
  | inl fi => (Uid fi =? Geteuid w) && (Perm (Mode fi) =? mode_0700)
  | inr _ => false
  end.

(** A candidate is usable: it can be stat'ed, it belongs to the effective
    user, and its permission bits are exactly 0700. *)
Definition usable (w : W) (dir : string) : Prop :=
  exists fi, Stat w dir = inl fi /\ Uid fi = Geteuid w /\ Perm (Mode fi) = mode_0700.

(** The rest of the system may change the world between two calls; the
    package variables stay. *)
Definition with_world (f : W -> W) (st : State W) : State W :=
  mkState (f (world st)) (rootlessRuntimeDirOnce st) (rootlessRuntimeDir st)
          (trace st).

(** The results of the calls to [getRuntimeDir] that follow state [st], one
    per element of [changes]. *)
Fixpoint later_calls (changes : list (W -> W)) (st : State W)
  : list (string * option error) :=
  match changes with
  | [] => []
  | f :: rest =>
      let (r, st') := getRuntimeDir (with_world f st) in
      r :: later_calls rest st'
  end.

End Vocabulary.

(** ** A small concrete world

    Directories are an association list from path to [FileInfo]; a
    directory can be created where [creatable] lists it and then belongs
    to the effective user. *)

Module Sim.

Record machine : Type := mkMachine {
  env : list (string * string);
  euid : Z;
  dirs : list (string * FileInfo);
  creatable : list string;
  programs : list (string * (string * option oserror))
}.

Fixpoint lookup {A} (k : string) (l : list (string * A)) : option A :=
  match l with
  | [] => None
  | (k', v) :: l' => if (k =? k')%string then Some v else lookup k l'
  end.

Definition mem (k : string) (l : list string) : bool :=
  existsb (String.eqb k) l.

Definition ENOENT : Z := 2.
Definition EACCES : Z := 13.
Definition ModeDir : Z := Z.shiftl 1 31.

Definition getenv (w : machine) (key : string) : string :=
  match lookup key (env w) with
  | Some v => v
  | None => ""
  end.

Definition add_dir (w : machine) (path : string) (perm : Z) : machine :=
  mkMachine (env w) (euid w)
          ((path, mkFileInfo (Z.lor ModeDir perm) (euid w)) :: dirs w)
          (creatable w) (programs w).

Definition mkdirAll (w : machine) (path : string) (perm : Z)
  : machine * option oserror :=
  match lookup path (dirs w) with
  | Some _ => (w, None)
  | None =>
      if mem path (creatable w) then (add_dir w path perm, None)
      else (w, Some (PathError "mkdir" path EACCES))
  end.

Definition mkdir (w : machine) (path : string) (perm : Z)
  : machine * option oserror :=
  match lookup path (dirs w) with
  | Some _ => (w, Some (PathError "mkdir" path EEXIST))
  | None =>
      if mem path (creatable w) then (add_dir w path perm, None)
      else (w, Some (PathError "mkdir" path EACCES))
  end.

Definition chmod (w : machine) (path : string) (perm : Z)
  : machine * option oserror :=
  match lookup path (dirs w) with
  | Some fi =>
      (mkMachine (env w) (euid w)
               ((path, mkFileInfo (Z.lor ModeDir perm) (Uid fi)) :: dirs w)
               (creatable w) (programs w), None)
  | None => (w, Some (PathError "chmod" path ENOENT))
  end.

Definition stat (w : machine) (path : string) : FileInfo + oserror :=
  match lookup path (dirs w) with
  | Some fi => inl fi
  | None => inr (PathError "stat" path ENOENT)
  end.

Definition evalSymlinks (w : machine) (path : string) : string + oserror :=
  match lookup path (dirs w) with
  | Some _ => inl path
  | None => inr (PathError "lstat" path ENOENT)
  end.

Definition run (w : machine) (name : string) (args : list string)
  : machine * (string * option oserror) :=
  match lookup name (programs w) with
  | Some r => (w, r)
  | None => (w, ("", Some (ExecError name ENOENT)))
  end.

#[global] Instance sim_OS : OS machine := {
  Getenv := getenv;
  Geteuid := euid;
  IsRootless := fun w => negb (euid w =? 0);
  GetRootlessUID := euid;
  MkdirAll := mkdirAll;
  Mkdir := mkdir;
  Chmod := chmod;
  Stat := stat;
  EvalSymlinks := evalSymlinks;
  Run := run
}.

(** A machine on which [conmon --version] prints [out]. *)
Definition with_conmon (out : string) : machine :=
  mkMachine [] 1000 [] [] [("/usr/bin/conmon", (out, None))].

(** A rootless user with nothing set and nowhere to write. *)
Definition bare : machine := mkMachine [] 1000 [] [] [].

(** The same user with [XDG_RUNTIME_DIR] set. *)
Definition with_xdg (dir : string) : machine :=
  mkMachine [("XDG_RUNTIME_DIR", dir)] 1000 [] [] [].

(** [/run/user/1000] exists with the given mode and owner. *)
Definition with_run_user (mode owner : Z) : machine :=
  mkMachine [] 1000 [("/run/user/1000", mkFileInfo mode owner)] [] [].

(** Only the fall-back under [/tmp] can be created. *)
Definition tmp_only : machine :=
  mkMachine [] 1000 [] ["/tmp/run-1000"] [].

(** Only a home directory is there. *)
Definition home_only : machine :=
  mkMachine [("HOME", "/home/u")] 1000
          [("/home/u", mkFileInfo (Z.lor ModeDir 493) 1000)] [] [].

End Sim.

(** ** Vocabulary for the properties of the pattern *)

(** Does [s] begin with a decimal digit? *)
Definition starts_with_digit (s : string) : bool :=
  match s with
  | String c _ => is_digit c
  | EmptyString => false
  end.


(** ** Vocabulary for the properties of the runtime directory *)

(** The calls [getRuntimeDir] may make: it reads three environment
    variables and the two user ids, creates directories with mode 0700
    only, stats, resolves symbolic links and logs. *)
Definition getRuntimeDir_event (e : Event) : bool :=
  match e with
  | EvGetenv key =>
      (key =? "XDG_RUNTIME_DIR")%string || (key =? "TMPDIR")%string ||
      (key =? "HOME")%string
  | EvGetRootlessUID | EvGeteuid => true
  | EvMkdirAll _ perm => perm =? mode_0700
  | EvStat _ | EvEvalSymlinks _ | EvDebugf _ => true
  | EvIsRootless | EvMkdir _ _ | EvChmod _ _ | EvRun _ _ => false
  end.

Section MoreVocabulary.

Context {W : Type} `{OS W}.

(** The state in which the calls of [later_calls] leave the process. *)
Fixpoint after_calls (changes : list (W -> W)) (st : State W) : State W :=
  match changes with
  | [] => st
  | f :: rest => after_calls rest (snd (getRuntimeDir (with_world f st)))
  end.

End MoreVocabulary.

(** ** More concrete worlds *)

(** [HOME] names a directory that is not there, and nothing else helps. *)
Definition sim_home_missing : Sim.machine :=
  Sim.mkMachine [("HOME", "/home/gone")] 1000 [] [] [].

(** A rootless machine on which nothing can be changed: [libpod] is always
    there already and its mode cannot be set. *)
Record frozen : Type := mkFrozen { frozen_xdg : string }.

Definition EPERM : Z := 1.

#[global] Instance frozen_OS : OS frozen := {
  Getenv := fun w key =>
    if (key =? "XDG_RUNTIME_DIR")%string then frozen_xdg w else "";
  Geteuid := fun _ => 1000;
  IsRootless := fun _ => true;
  GetRootlessUID := fun _ => 1000;
  MkdirAll := fun w path _ => (w, Some (PathError "mkdir" path EPERM));
  Mkdir := fun w path _ => (w, Some (PathError "mkdir" path EEXIST));
  Chmod := fun w path _ => (w, Some (PathError "chmod" path EPERM));
  Stat := fun _ path => inr (PathError "stat" path Sim.ENOENT);
  EvalSymlinks := fun _ path => inr (PathError "lstat" path Sim.ENOENT);
  Run := fun w name _ => (w, ("", Some (ExecError name Sim.ENOENT)))
}.

(** [XDG_RUNTIME_DIR] is [/xdg]; [/xdg/libpod] can be created. *)
Definition sim_libpod_creatable : Sim.machine :=
  Sim.mkMachine [("XDG_RUNTIME_DIR", "/xdg")] 1000 [] ["/xdg/libpod"] [].

(** [XDG_RUNTIME_DIR] is [/xdg]; [/xdg/libpod] exists with mode 0755. *)
Definition sim_libpod_exists : Sim.machine :=
  Sim.mkMachine [("XDG_RUNTIME_DIR", "/xdg")] 1000
                [("/xdg/libpod", mkFileInfo (Z.lor Sim.ModeDir 493) 1000)] [] [].

(** Nothing is set, and only the relative directory [libpod] can be
    created. *)
Definition sim_cwd_writable : Sim.machine :=
  Sim.mkMachine [] 1000 [] ["libpod"] [].

(** ** The default configuration

    [defaultConfigFromMemory] (lines 67-144).  The struct it fills,
    [LibpodConfig], and the type of [StateType] are declared in another file
    of the package; [LibpodConfig] is modelled with the fields this function
    assigns, and [RuntimeStateStore] with its constant [BoltDBStateStore]
    are taken as parameters.  [storage.StoreOptions] belongs to the package
    [github.com/containers/storage]: the function reads and writes its
    field [GraphRoot] and passes the other fields on, which are kept
    together as [StoreRest]. *)

Definition _defaultGraphRoot : string := "/var/lib/containers/storage".
Definition _defaultTransport : string := "docker://".

(** The exported package variables of lines 43-55.  They are variables, not
    constants: the function uses the value they hold when it is called. *)
Record PackageVars : Type := mkPackageVars {
  DefaultInitPath : string;
  DefaultInfraImage : string;
  DefaultInfraCommand : string;
  DefaultRootlessSHMLockPath : string;
  DefaultDetachKeys : string
}.

(** The values the package gives them. *)
Definition initial_vars : PackageVars :=
  mkPackageVars "/usr/libexec/podman/catatonit" "k8s.gcr.io/pause:3.1"
                "/pause" "/libpod_rootless_lock" "ctrl-p,ctrl-q".

Record StoreOptions (R : Type) : Type := mkStoreOptions {
  GraphRoot : string;
  StoreRest : R
}.
Arguments mkStoreOptions {R}.
Arguments GraphRoot {R}.
Arguments StoreRest {R}.

(** [storage.DefaultStoreOptions(rootless, rootlessUID)]: it reads the
    storage configuration and may write one. *)
Class Storage (W R : Type) : Type := {
  DefaultStoreOptions : W -> bool -> Z -> W * (StoreOptions R + oserror)
}.

(** The calls [defaultConfigFromMemory] makes itself to [storage] and to
    [logrus.Warnf], the latter with its format and arguments. *)
Inductive ConfigEvent : Type :=
| EvDefaultStoreOptions (rootless : bool) (rootlessUID : Z)
| EvWarnf (format : string) (args : list string).

(** A Go [map[string][]string] with distinct keys, as an association
    list. *)
Fixpoint map_lookup (key : string) (m : list (string * list string))
  : option (list string) :=
  match m with
  | [] => None
  | (k, v) :: m' => if (key =? k)%string then Some v else map_lookup key m'
  end.

(** The declaration of the struct is not in this file.  The record has the
    fields that lines 73-141 assign, each with the type of the value
    assigned to it; a map is an association list. *)
Record LibpodConfig (R RuntimeStateStore : Type) : Type := mkLibpodConfig {
  TmpDir : string;
  EventsLogFilePath : string;
  StaticDir : string;
  VolumePath : string;
  StorageConfig : StoreOptions R;
  ImageDefaultTransport : string;
  StateType : RuntimeStateStore;
  OCIRuntime : string;
  OCIRuntimes : list (string * list string);
  ConmonPath : list string;
  RuntimeSupportsJSON : list string;
  RuntimeSupportsNoCgroups : list string;
  InitPath : string;
  NoPivotRoot : bool;
  InfraCommand : string;
  InfraImage : string;
  EnablePortReservation : bool;
  NumLocks : Z;
  EventsLogger : string;
  DetachKeys : string;
  LockType : string
}.
Arguments mkLibpodConfig {R RuntimeStateStore}.
Arguments TmpDir {R RuntimeStateStore}.
Arguments EventsLogFilePath {R RuntimeStateStore}.
Arguments StaticDir {R RuntimeStateStore}.
Arguments VolumePath {R RuntimeStateStore}.
Arguments StorageConfig {R RuntimeStateStore}.
Arguments ImageDefaultTransport {R RuntimeStateStore}.
Arguments StateType {R RuntimeStateStore}.
Arguments OCIRuntime {R RuntimeStateStore}.
Arguments OCIRuntimes {R RuntimeStateStore}.
Arguments ConmonPath {R RuntimeStateStore}.
Arguments RuntimeSupportsJSON {R RuntimeStateStore}.
Arguments RuntimeSupportsNoCgroups {R RuntimeStateStore}.
Arguments InitPath {R RuntimeStateStore}.
Arguments NoPivotRoot {R RuntimeStateStore}.
Arguments InfraCommand {R RuntimeStateStore}.
Arguments InfraImage {R RuntimeStateStore}.
Arguments EnablePortReservation {R RuntimeStateStore}.
Arguments NumLocks {R RuntimeStateStore}.
Arguments EventsLogger {R RuntimeStateStore}.
Arguments DetachKeys {R RuntimeStateStore}.
Arguments LockType {R RuntimeStateStore}.

Section Config.

Context {W : Type} `{OS W}.
Context {R : Type} `{Storage W R}.
Context {RuntimeStateStore : Type}.
Variable BoltDBStateStore : RuntimeStateStore.

Definition storage_DefaultStoreOptions (rootless : bool) (rootlessUID : Z)
  : M W (StoreOptions R + oserror) :=
  fun st =>
    let (w', r) := DefaultStoreOptions (world st) rootless rootlessUID in
    (r, mkState w' (rootlessRuntimeDirOnce st) (rootlessRuntimeDir st)
                (trace st)).

(** The result is the pair the Go function returns ([None] for the nil
    pointer) together with the calls to [storage] and [logrus.Warnf] it has
    made, in order. *)
Definition defaultConfigFromMemory (vars : PackageVars)
  : M W ((option (LibpodConfig R RuntimeStateStore) * option error)
         * list ConfigEvent) :=
  r <- defaultTmpDir ;;
  match snd r with
  | Some err => ret ((None, Some err), [])
  | None =>
      let tmp := fst r in
      rootless <- unshare_IsRootless ;;
      rootlessUID <- unshare_GetRootlessUID ;;
      so <- storage_DefaultStoreOptions rootless rootlessUID ;;
      match so with
      | inr err =>
          ret ((None, Some (External err)),
               [EvDefaultStoreOptions rootless rootlessUID])
      | inl storeOpts =>
          let unset := (GraphRoot storeOpts =? "")%string in
          let storeOpts :=
            if unset then mkStoreOptions _defaultGraphRoot (StoreRest storeOpts)
            else storeOpts in
          ret ((Some
                  {| TmpDir := tmp;
                     EventsLogFilePath :=
                       filepath_Join [tmp; "events"; "events.log"];
                     StaticDir := filepath_Join [GraphRoot storeOpts; "libpod"];
                     VolumePath := filepath_Join [GraphRoot storeOpts; "volumes"];
                     StorageConfig := storeOpts;
                     ImageDefaultTransport := _defaultTransport;
                     StateType := BoltDBStateStore;
                     OCIRuntime := "runc";
                     OCIRuntimes :=
                       [("runc",
                         ["/usr/bin/runc"; "/usr/sbin/runc";
                          "/usr/local/bin/runc"; "/usr/local/sbin/runc";
                          "/sbin/runc"; "/bin/runc";
                          "/usr/lib/cri-o-runc/sbin/runc";
                          "/run/current-system/sw/bin/runc"]);
                        ("crun",
                         ["/usr/bin/crun"; "/usr/sbin/crun";
                          "/usr/local/bin/crun"; "/usr/local/sbin/crun";
                          "/sbin/crun"; "/bin/crun";
                          "/run/current-system/sw/bin/crun"])];
                     ConmonPath :=
                       ["/usr/libexec/podman/conmon";
                        "/usr/local/libexec/podman/conmon";
                        "/usr/local/lib/podman/conmon";
                        "/usr/bin/conmon"; "/usr/sbin/conmon";
                        "/usr/local/bin/conmon"; "/usr/local/sbin/conmon";
                        "/run/current-system/sw/bin/conmon"];
                     RuntimeSupportsJSON := ["crun"; "runc"];
                     RuntimeSupportsNoCgroups := ["crun"];
                     InitPath := DefaultInitPath vars;
                     NoPivotRoot := false;
                     InfraCommand := DefaultInfraCommand vars;
                     InfraImage := DefaultInfraImage vars;
                     EnablePortReservation := true;
                     NumLocks := 2048;
                     EventsLogger := "file";
                     DetachKeys := DefaultDetachKeys vars;
                     LockType := "shm" |},
                None),
               EvDefaultStoreOptions rootless rootlessUID ::
               (if unset then
                  [EvWarnf "Storage configuration is unset - using hardcoded default graph root %q"
                           [_defaultGraphRoot]]
                else []))
      end
  end.

End Config.

(** Storage on the small concrete world: the graph root is what the
    variable [GRAPHROOT] holds, and the configuration is unreadable when
    [STORAGE_BROKEN] is set. *)
#[global] Instance sim_Storage : Storage Sim.machine unit := {
  DefaultStoreOptions := fun w _ _ =>
    if (Sim.getenv w "STORAGE_BROKEN" =? "")%string
    then (w, inl (mkStoreOptions (Sim.getenv w "GRAPHROOT") tt))
    else (w, inr (PathError "open" "/etc/containers/storage.conf" Sim.EACCES))
}.

(** The root user, with and without a configured graph root. *)
Definition sim_root (graphroot : string) : Sim.machine :=
  Sim.mkMachine [("GRAPHROOT", graphroot)] 0 [] [] [].

Definition sim_root_broken : Sim.machine :=
  Sim.mkMachine [("STORAGE_BROKEN", "1")] 0 [] [] [].

(** * Properties *)

(** ** The version gate *)

Lemma try_lengths_some {A} (f : nat -> option A) (k : nat) (r : A) :
  try_lengths f k = Some r ->
  exists k', (1 <= k' <= k)%nat /\ f k' = Some r.
Proof.
  induction k as [| k IH]; simpl; [discriminate |].
  destruct (f (S k)) as [r' |] eqn:Hf.
  - intros Hr. exists (S k). split; [lia | congruence].
  - intros Hr. destruct (IH Hr) as [k' [Hk Hk']].
    exists k'. split; [lia | exact Hk'].
Qed.

Lemma take_digit_run (s : string) (k : nat) :
  (1 <= k <= digit_run s)%nat -> digit_group (take k s).
Proof.
  revert s. induction k as [| k IH]; intros s [Hlo Hhi]; [lia |].
  destruct s as [| c s']; simpl in Hhi; [lia |].
  destruct (is_digit c) eqn:Hc; [| lia].
  split; [discriminate |]. simpl. rewrite Hc. simpl.
  destruct k as [| k']; [reflexivity |].
  apply IH. lia.
Qed.

(** Whatever the pattern captures is a run of digits, and there is one
    capture per group. *)
Lemma match_items_groups (p : list item) (s : string) (caps : list string)
      (n : nat) :
  match_items p s = Some (caps, n) ->
  Forall digit_group caps /\ List.length caps = NumSubexp p.
Proof.
  revert s caps n.
  induction p as [| [l | |] p' IH]; intros s caps n Hm; simpl in Hm.
  - inversion Hm. split; [constructor | reflexivity].
  - destruct (has_prefix l s); [| discriminate].
    destruct (match_items p' (drop (String.length l) s)) as [[c m] |] eqn:E;
      [| discriminate].
    inversion Hm; subst. exact (IH _ _ _ E).
  - apply try_lengths_some in Hm. destruct Hm as [k [Hk Hm]].
    destruct (match_items p' (drop k s)) as [[c m] |] eqn:E; [| discriminate].
    inversion Hm; subst. destruct (IH _ _ _ E) as [Hall Hlen].
    split; [constructor; [now apply take_digit_run | exact Hall] |].
    simpl. now rewrite Hlen.
  - destruct s as [| c0 s']; [discriminate |].
    destruct (Ascii.eqb c0 "010"); [discriminate |].
    destruct (match_items p' (drop (rune_width (String c0 s')) (String c0 s')))
      as [[c m] |] eqn:E; [| discriminate].
    inversion Hm; subst. exact (IH _ _ _ E).
Qed.

Lemma digit_not_sign (c : ascii) :
  is_digit c = true -> Ascii.eqb c "-" = false /\ Ascii.eqb c "+" = false.
Proof.
  destruct c as [[] [] [] [] [] [] [] []]; intros Hc;
    try discriminate Hc; split; reflexivity.
Qed.

Lemma parse_digits_all_digits (s : string) (acc : Z) :
  all_digits s = true -> 0 <= acc ->
  exists n, parse_digits acc s = Some n /\ 0 <= n.
Proof.
  revert acc. induction s as [| c s' IH]; intros acc Hd Hacc; simpl in *.
  - exists acc. split; [reflexivity | exact Hacc].
  - apply andb_true_iff in Hd. destruct Hd as [Hc Hs]. rewrite Hc.
    apply IH; [exact Hs |].
    unfold is_digit in Hc. apply andb_true_iff in Hc. destruct Hc as [Hlo _].
    apply Z.leb_le in Hlo. lia.
Qed.

(** On a captured group [Atoi] can only fail by overflow. *)
Lemma Atoi_digit_group (g : string) :
  digit_group g ->
  (exists v, Atoi g = inl v /\ 0 <= v <= maxInt) \/
  Atoi g = inr (NumError "Atoi" g ErrRange).
Proof.
  intros [Hne Hd]. destruct g as [| c0 rest]; [contradiction |].
  assert (Hc : is_digit c0 = true)
    by (simpl in Hd; apply andb_true_iff in Hd; tauto).
  destruct (digit_not_sign c0 Hc) as [Hminus Hplus].
  destruct (parse_digits_all_digits (String c0 rest) 0 Hd) as [n [Hn Hpos]];
    [lia |].
  unfold Atoi. rewrite Hminus, Hplus. cbn [orb]. rewrite Hn.
  destruct (Z.leb_spec minInt n) as [_ | Hlt];
    [| unfold minInt, intSize in Hlt; simpl in Hlt; lia].
  destruct (Z.leb_spec n maxInt) as [Hmax | _]; cbn [andb].
  - left. exists n. split; [reflexivity | lia].
  - right. reflexivity.
Qed.

(** [FindStringSubmatch] returns either nil or the whole match followed by
    three groups of digits, and it matches only text that starts with
    ["conmon version "]. *)
Lemma FindStringSubmatch_shape (s : string) :
  FindStringSubmatch s = [] \/
  exists whole g1 g2 g3,
    FindStringSubmatch s = [whole; g1; g2; g3] /\
    has_prefix "conmon version " s = true /\
    digit_group g1 /\ digit_group g2 /\ digit_group g3.
Proof.
  unfold FindStringSubmatch.
  destruct (match_items conmonPattern s) as [[caps n] |] eqn:Hm;
    [right | left; reflexivity].
  destruct (match_items_groups _ _ _ _ Hm) as [Hall Hlen].
  assert (Hp : has_prefix "conmon version " s = true).
  { unfold conmonPattern in Hm. cbn [match_items] in Hm.
    destruct (has_prefix "conmon version " s); [reflexivity | discriminate]. }
  destruct caps as [| g1 [| g2 [| g3 [| g4 caps]]]]; try discriminate Hlen.
  inversion Hall as [| ? ? H1 Hall1]; subst.
  inversion Hall1 as [| ? ? H2 Hall2]; subst.
  inversion Hall2 as [| ? ? H3 _]; subst.
  exists (take n s), g1, g2, g3.
  split; [reflexivity |]. split; [exact Hp |]. auto.
Qed.

Section VersionGate.

Context {W : Type} `{OS W}.

Lemma probeConmon_run_ok (st : State W) (bin out : string) (w' : W) :
  Run (world st) bin ["--version"] = (w', (out, None)) ->
  fst (probeConmon bin st) = probeConmon_check None out.
Proof.
  intros HR. unfold probeConmon, exec_Run, command, bind, ret.
  rewrite HR. reflexivity.
Qed.

Lemma probeConmon_run_failed (st : State W) (bin out : string) (w' : W)
      (e : oserror) :
  Run (world st) bin ["--version"] = (w', (out, Some e)) ->
  fst (probeConmon bin st) = Some (External e).
Proof.
  intros HR. unfold probeConmon, exec_Run, command, bind, ret.
  rewrite HR. reflexivity.
Qed.

(** When the pattern does not match, the error being wrapped is the [nil]
    left by the successful [cmd.Run], and wrapping [nil] gives [nil]. *)
Lemma probeConmon_check_unmatched (out : string) :
  List.length (FindStringSubmatch out) <> 4%nat ->
  probeConmon_check None out = None.
Proof.
  intros Hlen. unfold probeConmon_check.
  destruct (Nat.eqb_spec (List.length (FindStringSubmatch out)) 4);
    [contradiction | reflexivity].
Qed.

(** The three comparisons of [probeConmon_check], once all three groups
    are integers. *)
Lemma probeConmon_check_parsed (out whole s1 s2 s3 : string) (major minor patch : Z) :
  FindStringSubmatch out = [whole; s1; s2; s3] ->
  Atoi s1 = inl major -> Atoi s2 = inl minor -> Atoi s3 = inl patch ->
  probeConmon_check None out =
    if major <? 2 then Some ErrConmonOutdated
    else if 2 <? major then None
    else if minor <? 0 then Some ErrConmonOutdated
    else if 0 <? minor then None
    else if patch <? 1 then Some ErrConmonOutdated
    else None.
Proof.
  intros Hm H1 H2 H3. unfold probeConmon_check. rewrite Hm. simpl.
  rewrite H1, H2, H3.
  unfold _conmonMinMajorVersion, _conmonMinMinorVersion, _conmonMinPatchVersion.
  rewrite !Z.gtb_ltb.
  destruct (patch <? 1), (1 <? patch); reflexivity.
Qed.

End VersionGate.

(** C3. Whenever the output matches and its three groups parse to
    (major, minor, patch), [probeConmon] returns nil exactly when the triple
    is at least (2,0,1) in lexicographic order and [ErrConmonOutdated]
    otherwise: a major above 2 is accepted and one below 2 is outdated
    whatever minor and patch are; at major 2 the same holds for minor
    against 0; at minor 0 a patch below 1 is outdated and any other patch is
    accepted. *)
Theorem probeConmon_accepts_iff_not_below_minimum
    {W : Type} `{OS W} (st : State W) (bin out whole s1 s2 s3 : string)
    (w' : W) (major minor patch : Z) :
  Run (world st) bin ["--version"] = (w', (out, None)) ->
  FindStringSubmatch out = [whole; s1; s2; s3] ->
  Atoi s1 = inl major -> Atoi s2 = inl minor -> Atoi s3 = inl patch ->
  let result := fst (probeConmon bin st) in
  (result = None <-> triple_le conmonMinVersion (major, minor, patch)) /\
  (~ triple_le conmonMinVersion (major, minor, patch) ->
   result = Some ErrConmonOutdated) /\
  (major > 2 -> result = None) /\
  (major < 2 -> result = Some ErrConmonOutdated) /\
  (major = 2 -> minor > 0 -> result = None) /\
  (major = 2 -> minor < 0 -> result = Some ErrConmonOutdated) /\
  (major = 2 -> minor = 0 -> patch < 1 -> result = Some ErrConmonOutdated) /\
  (major = 2 -> minor = 0 -> patch >= 1 -> result = None).
Proof.
  intros HR Hm H1 H2 H3 result. subst result.
  rewrite (probeConmon_run_ok _ _ _ _ HR).
  rewrite (probeConmon_check_parsed _ _ _ _ _ _ _ _ Hm H1 H2 H3).
  unfold triple_le, conmonMinVersion, _conmonMinMajorVersion,
    _conmonMinMinorVersion, _conmonMinPatchVersion.
  destruct (Z.ltb_spec major 2), (Z.ltb_spec 2 major),
    (Z.ltb_spec minor 0), (Z.ltb_spec 0 minor), (Z.ltb_spec patch 1);
    repeat split; intros; try reflexivity; try discriminate; try lia.
Qed.

Lemma probeConmon_accepts_iff_not_below_minimum_witness :
  let result :=
    fst (probeConmon "/usr/bin/conmon"
           (start (Sim.with_conmon "conmon version 2.1.0, commit: unknown"))) in
  (result = None <-> triple_le conmonMinVersion (2, 1, 0)) /\
  (~ triple_le conmonMinVersion (2, 1, 0) -> result = Some ErrConmonOutdated) /\
  (2 > 2 -> result = None) /\
  (2 < 2 -> result = Some ErrConmonOutdated) /\
  (2 = 2 -> 1 > 0 -> result = None) /\
  (2 = 2 -> 1 < 0 -> result = Some ErrConmonOutdated) /\
  (2 = 2 -> 1 = 0 -> 0 < 1 -> result = Some ErrConmonOutdated) /\
  (2 = 2 -> 1 = 0 -> 0 >= 1 -> result = None).
Proof.
  apply (probeConmon_accepts_iff_not_below_minimum
           (start (Sim.with_conmon "conmon version 2.1.0, commit: unknown"))
           "/usr/bin/conmon" "conmon version 2.1.0, commit: unknown"
           "conmon version 2.1.0" "2" "1" "0"
           (Sim.with_conmon "conmon version 2.1.0, commit: unknown") 2 1 0);
    reflexivity.
Defined.

(** C1. Output that the pattern does not match should be answered with the
    "version format changed" error.  On ["garbage output"] and on empty
    output [FindStringSubmatch] returns nil, and [probeConmon] returns nil:
    line 236 wraps the [err] that line 229 has just found to be nil. *)
Lemma probeConmon_unmatched_output_returns_nil :
  FindStringSubmatch "garbage output" = [] /\
  fst (probeConmon "/usr/bin/conmon" (start (Sim.with_conmon "garbage output")))
    = None /\
  FindStringSubmatch "" = [] /\
  fst (probeConmon "/usr/bin/conmon" (start (Sim.with_conmon ""))) = None /\
  is_VersionFormatErr
    (fst (probeConmon "/usr/bin/conmon" (start (Sim.with_conmon "garbage output"))))
    = false.
Proof. repeat split; reflexivity. Qed.

(** C7. The separators between the integers should be literal dots.  The
    pattern's [.] is unescaped: ["conmon version 2x0y1"] matches with groups
    2, 0 and 1 and [probeConmon] accepts it. *)
Lemma probeConmon_accepts_other_separators :
  FindStringSubmatch "conmon version 2x0y1" =
    ["conmon version 2x0y1"; "2"; "0"; "1"] /\
  fst (probeConmon "/usr/bin/conmon"
         (start (Sim.with_conmon "conmon version 2x0y1"))) = None.
Proof. split; reflexivity. Qed.




(** C9. When running the executable fails, [probeConmon] returns the error
    of [cmd.Run] itself, whatever was captured on standard output; that
    error is neither [ErrConmonOutdated] nor a "version format changed"
    error. *)
Theorem probeConmon_returns_invocation_error
    {W : Type} `{OS W} (st : State W) (bin out : string) (w' : W)
    (e : oserror) :
  Run (world st) bin ["--version"] = (w', (out, Some e)) ->
  let result := fst (probeConmon bin st) in
  result = Some (External e) /\
  result <> Some ErrConmonOutdated /\
  is_VersionFormatErr result = false /\
  trace (snd (probeConmon bin st)) =
    (trace st ++ [EvRun bin ["--version"]])%list.
Proof.
  intros HR result.
  assert (Hres : result = Some (External e))
    by (subst result; exact (probeConmon_run_failed _ _ _ _ _ HR)).
  rewrite Hres. repeat split; try reflexivity; try discriminate.
  unfold probeConmon, exec_Run, command, bind, ret. rewrite HR. reflexivity.
Qed.

Lemma probeConmon_returns_invocation_error_witness :
  let st := start Sim.bare in
  let result := fst (probeConmon "/usr/bin/conmon" st) in
  result = Some (External (ExecError "/usr/bin/conmon" Sim.ENOENT)) /\
  result <> Some ErrConmonOutdated /\
  is_VersionFormatErr result = false /\
  trace (snd (probeConmon "/usr/bin/conmon" st)) =
    (trace st ++ [EvRun "/usr/bin/conmon" ["--version"]])%list.
Proof.
  apply (probeConmon_returns_invocation_error
           (start Sim.bare) "/usr/bin/conmon" "" Sim.bare
           (ExecError "/usr/bin/conmon" Sim.ENOENT)).
  reflexivity.
Defined.

(** ** Paths *)

Lemma clean_elems_nonempty (rooted : bool) (elems stack : list string) :
  Forall (fun e => e <> "") stack ->
  Forall (fun e => e <> "") (clean_elems rooted stack elems).
Proof.
  revert stack. induction elems as [| e rest IH]; intros stack Hs; simpl.
  - exact Hs.
  - destruct (String.eqb_spec e "") as [-> | Hne]; simpl; [now apply IH |].
    destruct (e =? ".")%string; [now apply IH |].
    destruct (e =? "..")%string.
    + destruct stack as [| top below].
      * apply IH. destruct rooted; repeat constructor; exact Hne.
      * destruct (top =? "..")%string.
        -- apply IH. destruct rooted; [exact Hs | constructor; [exact Hne | exact Hs]].
        -- apply IH. now inversion Hs.
    + apply IH. constructor; [exact Hne | exact Hs].
Qed.

Lemma concat_nonempty (sep : string) (l : list string) :
  l <> [] -> Forall (fun e => e <> "") l -> String.concat sep l <> "".
Proof.
  destruct l as [| a [| b l']]; intros Hl Hall; simpl.
  - contradiction.
  - now inversion Hall.
  - inversion Hall as [| ? ? Ha _]; subst.
    destruct a; [contradiction | discriminate].
Qed.

Lemma filepath_Clean_nonempty (path : string) : filepath_Clean path <> "".
Proof.
  unfold filepath_Clean. destruct path as [| c path']; [discriminate |].
  destruct (Ascii.eqb c "/"); [discriminate |].
  destruct (rev (clean_elems false [] (split_path (String c path')))) eqn:E;
    [discriminate |].
  rewrite <- E. apply concat_nonempty.
  - rewrite E. discriminate.
  - apply Forall_rev, clean_elems_nonempty. constructor.
Qed.

(** [Join] returns the empty string only when every element is empty. *)
Lemma filepath_Join_nonempty (elem : list string) :
  Exists (fun e => e <> "") elem -> filepath_Join elem <> "".
Proof.
  induction elem as [| e rest IH]; intros Hex; simpl.
  - inversion Hex.
  - destruct (String.eqb_spec e "") as [-> | Hne].
    + apply IH. inversion Hex; [contradiction | assumption].
    + apply filepath_Clean_nonempty.
Qed.

Lemma userRunDir_nonempty (uid : Z) : userRunDir uid <> "".
Proof.
  apply filepath_Join_nonempty. constructor. discriminate.
Qed.

Lemma tmpRunDir_nonempty (tmp : string) (uid : Z) : tmpRunDir tmp uid <> "".
Proof.
  apply filepath_Join_nonempty. apply Exists_cons_tl. constructor. discriminate.
Qed.

(** ** The runtime directory *)

Ltac run_go :=
  cbv beta iota zeta delta
    [getRuntimeDir Once_Do getRuntimeDir_func stat_owned_0700 defaultTmpDir
     bind ret os_Getenv os_TempDir os_Geteuid unshare_IsRootless
     unshare_GetRootlessUID os_MkdirAll os_Mkdir os_Chmod os_Stat
     filepath_EvalSymlinks logrus_Debugf set_rootlessRuntimeDir
     get_rootlessRuntimeDir query command emit errors_Wrap
     world rootlessRuntimeDirOnce rootlessRuntimeDir trace fst snd negb andb].

(** One candidate directory: the answers of [MkdirAll], [Stat] and the two
    comparisons are split into cases. *)
Ltac candidate HM :=
  rewrite HM; run_go;
  match goal with
  | |- context [match ?e with Some _ => _ | None => _ end] => destruct e
  end; run_go;
  match goal with
  | |- context [Stat ?w ?p] => destruct (Stat w p) as [? | ?]
  end; run_go;
  try match goal with
  | |- context [(Uid ?fi =? ?u)%Z] => destruct (Uid fi =? u)%Z
  end; run_go;
  try match goal with
  | |- context [(Perm ?m =? ?p)%Z] => destruct (Perm m =? p)%Z
  end; run_go.

Section RuntimeDir.

Context {W : Type} `{OS W}.



Lemma usableb_usable (w : W) (dir : string) :
  usableb w dir = true <-> usable w dir.
Proof.
  unfold usableb, usable. split.
  - destruct (Stat w dir) as [fi | e]; [| discriminate].
    intros Hb. apply andb_true_iff in Hb. destruct Hb as [Hu Hp].
    exists fi. repeat split; [now apply Z.eqb_eq | now apply Z.eqb_eq].
  - intros [fi [Hs [Hu Hp]]]. rewrite Hs.
    apply andb_true_iff. split; now apply Z.eqb_eq.
Qed.


Lemma eqb_nonempty (s : string) : s <> "" -> (s =? "")%string = false.
Proof. intros Hs. now apply String.eqb_neq. Qed.

Lemma getRuntimeDir_func_run (w w2 w3 : W) (e2 e3 : option oserror)
      (o : bool) (d : string) (t : list Event) :
  let xdg := Getenv w "XDG_RUNTIME_DIR" in
  let uid := GetRootlessUID w in
  let home := Getenv w3 "HOME" in
  MkdirAll w (userRunDir uid) mode_0700 = (w2, e2) ->
  MkdirAll w2 (tmpRunDir (TempDir w2) uid) mode_0700 = (w3, e3) ->
  let r := getRuntimeDir_func (mkState w o d t) in
  rootlessRuntimeDirOnce (snd r) = o /\
  (fst r, rootlessRuntimeDir (snd r), world (snd r)) =
    if negb (xdg =? "")%string then (None, xdg, w)
    else if usableb w2 (userRunDir uid) then (None, userRunDir uid, w2)
    else if usableb w3 (tmpRunDir (TempDir w2) uid)
         then (None, tmpRunDir (TempDir w2) uid, w3)
    else if (home =? "")%string then
      (Some (errorString "neither XDG_RUNTIME_DIR nor HOME was set non-empty"),
       d, w3)
    else
      match EvalSymlinks w3 home with
      | inr e => (Some (Wrapped (External e) ("cannot resolve " ++ home)), d, w3)
      | inl resolved => (None, filepath_Join [resolved; "rundir"], w3)
      end.
Proof.
  intros xdg uid home HM2 HM3 r. subst xdg uid home r.
  pose proof (eqb_nonempty _ (userRunDir_nonempty (GetRootlessUID w))) as N2.
  pose proof (eqb_nonempty _ (tmpRunDir_nonempty (TempDir w2) (GetRootlessUID w)))
    as N3.
  unfold TempDir, usableb, userRunDir, tmpRunDir in *.
  run_go.
  destruct (Getenv w "XDG_RUNTIME_DIR" =? "")%string eqn:Hx; run_go.
  - candidate HM2; rewrite ?N2, ?Hx; run_go; try (split; reflexivity).
    all: candidate HM3; rewrite ?N3, ?Hx; run_go; try (split; reflexivity).
    all: destruct (Getenv w3 "HOME" =? "")%string; run_go;
      try (split; reflexivity).
    all: destruct (EvalSymlinks w3 (Getenv w3 "HOME")); run_go;
      split; reflexivity.
  - repeat (rewrite Hx; run_go). split; reflexivity.
Qed.

(** The same with the two worlds left by [MkdirAll] written out. *)
Lemma getRuntimeDir_func_spec (st : State W) :
  let w := world st in
  let xdg := Getenv w "XDG_RUNTIME_DIR" in
  let uid := GetRootlessUID w in
  let w2 := fst (MkdirAll w (userRunDir uid) mode_0700) in
  let dir3 := tmpRunDir (TempDir w2) uid in
  let w3 := fst (MkdirAll w2 dir3 mode_0700) in
  let home := Getenv w3 "HOME" in
  let r := getRuntimeDir_func st in
  rootlessRuntimeDirOnce (snd r) = rootlessRuntimeDirOnce st /\
  (fst r, rootlessRuntimeDir (snd r), world (snd r)) =
    if negb (xdg =? "")%string then (None, xdg, w)
    else if usableb w2 (userRunDir uid) then (None, userRunDir uid, w2)
    else if usableb w3 dir3 then (None, dir3, w3)
    else if (home =? "")%string then
      (Some (errorString "neither XDG_RUNTIME_DIR nor HOME was set non-empty"),
       rootlessRuntimeDir st, w3)
    else
      match EvalSymlinks w3 home with
      | inr e => (Some (Wrapped (External e) ("cannot resolve " ++ home)),
                  rootlessRuntimeDir st, w3)
      | inl resolved => (None, filepath_Join [resolved; "rundir"], w3)
      end.
Proof.
  destruct st as [w o d t]. cbv zeta. cbn [world rootlessRuntimeDirOnce rootlessRuntimeDir].
  eapply (getRuntimeDir_func_run w _ _ _ _ o d t); apply surjective_pairing.
Qed.

(** A resolution that fails leaves [rootlessRuntimeDir] as it was. *)
Lemma getRuntimeDir_func_failure (st : State W) (e : error) :
  fst (getRuntimeDir_func st) = Some e ->
  rootlessRuntimeDir (snd (getRuntimeDir_func st)) = rootlessRuntimeDir st.
Proof.
  intros He. destruct (getRuntimeDir_func_spec st) as [_ Hspec].
  cbv zeta in Hspec. rewrite He in Hspec.
  repeat match type of Hspec with
         | _ = (if ?c then _ else _) => destruct c
         | _ = match ?c with inl _ => _ | inr _ => _ end => destruct c
         end; congruence.
Qed.

(** The first call runs the function literal and sets the [Once]. *)
Lemma getRuntimeDir_first (st : State W) :
  rootlessRuntimeDirOnce st = false ->
  let r := getRuntimeDir_func st in
  let r' := getRuntimeDir st in
  fst r' = match fst r with
           | Some e => ("", Some e)
           | None => (rootlessRuntimeDir (snd r), None)
           end /\
  rootlessRuntimeDirOnce (snd r') = true /\
  rootlessRuntimeDir (snd r') = rootlessRuntimeDir (snd r) /\
  world (snd r') = world (snd r) /\
  trace (snd r') = trace (snd r).
Proof.
  intros Honce r r'. subst r r'.
  unfold getRuntimeDir, Once_Do, bind, ret, get_rootlessRuntimeDir.
  rewrite Honce.
  destruct (getRuntimeDir_func st) as [[e |] st']; cbn; repeat split.
Qed.

(** Every later call returns the cached string with a nil error and
    touches nothing. *)
Lemma getRuntimeDir_cached (st : State W) :
  rootlessRuntimeDirOnce st = true ->
  getRuntimeDir st = ((rootlessRuntimeDir st, None), st).
Proof.
  intros Honce.
  unfold getRuntimeDir, Once_Do, bind, ret, get_rootlessRuntimeDir.
  rewrite Honce. reflexivity.
Qed.

Lemma later_calls_cached (changes : list (W -> W)) (st : State W) :
  rootlessRuntimeDirOnce st = true ->
  Forall (fun r => r = (rootlessRuntimeDir st, None)) (later_calls changes st).
Proof.
  revert st. induction changes as [| f rest IH]; intros st Honce; simpl.
  - constructor.
  - rewrite getRuntimeDir_cached by exact Honce.
    constructor; [reflexivity |]. apply (IH (with_world f st)). exact Honce.
Qed.

End RuntimeDir.

(** C2. A failed resolution should be answered with the same error on every
    later call.  For a user with neither [XDG_RUNTIME_DIR] nor [HOME] and no
    directory to use, the first call returns the error and the second call
    returns the empty string with a nil error: [rootlessRuntimeDirError] is a
    local variable, set only while the [Once] runs its function. *)
Lemma getRuntimeDir_failure_not_repeated :
  let first := getRuntimeDir (start Sim.bare) in
  let second := getRuntimeDir (snd first) in
  fst first =
    ("", Some (errorString "neither XDG_RUNTIME_DIR nor HOME was set non-empty")) /\
  fst second = ("", None) /\
  fst second <> fst first.
Proof. repeat split; try reflexivity. discriminate. Qed.

(** C4. In a process whose first call to [getRuntimeDir] fails, every later
    call returns the empty string and a nil error, whatever has happened to
    the world in between. *)
Theorem getRuntimeDir_after_failure
    {W : Type} `{OS W} (w : W) (changes : list (W -> W)) :
  snd (fst (getRuntimeDir (start w))) <> None ->
  Forall (fun r => r = ("", None))
         (later_calls changes (snd (getRuntimeDir (start w)))).
Proof.
  intros Hfail.
  destruct (getRuntimeDir_first (start w) eq_refl)
    as [Hres [Honce [Hdir _]]].
  cbv zeta in Hres, Honce, Hdir.
  destruct (fst (getRuntimeDir_func (start w))) as [e |] eqn:He.
  - rewrite (getRuntimeDir_func_failure _ _ He) in Hdir. simpl in Hdir.
    rewrite <- Hdir. apply later_calls_cached. exact Honce.
  - rewrite Hres in Hfail. contradiction.
Qed.

Lemma getRuntimeDir_after_failure_witness :
  Forall (fun r => r = ("", None))
         (later_calls [fun w => w; fun _ => Sim.with_xdg "/run/user/1000";
                       fun _ => Sim.home_only]
                      (snd (getRuntimeDir (start Sim.bare)))).
Proof.
  apply (getRuntimeDir_after_failure Sim.bare
           [fun w => w; fun _ => Sim.with_xdg "/run/user/1000";
            fun _ => Sim.home_only]).
  discriminate.
Defined.

(** C5. On the first resolution the strategies are tried in order and the
    first that succeeds wins: [XDG_RUNTIME_DIR] when it is non-empty; else
    [/run/user/<uid>] when, after [MkdirAll], it is usable; else
    [<tmp>/run-<uid>] under the same test; a directory is usable exactly
    when [Stat] succeeds, its owner is the effective uid and its permission
    bits are 0700.  When all three fail and [HOME] is empty the call fails
    with "neither XDG_RUNTIME_DIR nor HOME was set non-empty"; when [HOME]
    is set and resolves, the result is [rundir] under it. *)
Theorem getRuntimeDir_first_resolution
    {W : Type} `{OS W} (st : State W) :
  rootlessRuntimeDirOnce st = false ->
  let w := world st in
  let xdg := Getenv w "XDG_RUNTIME_DIR" in
  let uid := GetRootlessUID w in
  let dir2 := userRunDir uid in
  let w2 := fst (MkdirAll w dir2 mode_0700) in
  let dir3 := tmpRunDir (TempDir w2) uid in
  let w3 := fst (MkdirAll w2 dir3 mode_0700) in
  let home := Getenv w3 "HOME" in
  let result := fst (getRuntimeDir st) in
  (xdg <> "" -> result = (xdg, None)) /\
  (xdg = "" -> usable w2 dir2 -> result = (dir2, None)) /\
  (xdg = "" -> ~ usable w2 dir2 -> usable w3 dir3 -> result = (dir3, None)) /\
  (xdg = "" -> ~ usable w2 dir2 -> ~ usable w3 dir3 -> home = "" ->
   result =
     ("", Some (errorString "neither XDG_RUNTIME_DIR nor HOME was set non-empty"))) /\
  (xdg = "" -> ~ usable w2 dir2 -> ~ usable w3 dir3 -> home <> "" ->
   forall resolved, EvalSymlinks w3 home = inl resolved ->
   result = (filepath_Join [resolved; "rundir"], None)).
Proof.
  intros Honce w xdg uid dir2 w2 dir3 w3 home result.
  destruct (getRuntimeDir_first st Honce) as [Hres _].
  destruct (getRuntimeDir_func_spec st) as [_ Hspec].
  cbv zeta in Hres, Hspec.
  fold w xdg uid dir2 w2 dir3 w3 home in Hspec. fold result in Hres.
  assert (Hcase : forall (e : option error) (d : string) (w' : W),
             (fst (getRuntimeDir_func st),
              rootlessRuntimeDir (snd (getRuntimeDir_func st)),
              world (snd (getRuntimeDir_func st))) = (e, d, w') ->
             result = match e with Some e' => ("", Some e') | None => (d, None) end).
  { intros e d w' Heq. inversion Heq as [[He Hd Hw]]. rewrite Hres, He.
    reflexivity. }
  pose proof (usableb_usable w2 dir2) as U2.
  pose proof (usableb_usable w3 dir3) as U3.
  repeat split.
  - intros Hx. apply String.eqb_neq in Hx. rewrite Hx in Hspec.
    exact (Hcase _ _ _ Hspec).
  - intros Hx Hu. apply String.eqb_eq in Hx. apply U2 in Hu.
    rewrite Hx, Hu in Hspec. exact (Hcase _ _ _ Hspec).
  - intros Hx Hn2 Hu. apply String.eqb_eq in Hx. apply U3 in Hu.
    destruct (usableb w2 dir2); [exfalso; apply Hn2, U2; reflexivity |].
    rewrite Hx, Hu in Hspec. exact (Hcase _ _ _ Hspec).
  - intros Hx Hn2 Hn3 Hh. apply String.eqb_eq in Hx, Hh.
    destruct (usableb w2 dir2); [exfalso; apply Hn2, U2; reflexivity |].
    destruct (usableb w3 dir3); [exfalso; apply Hn3, U3; reflexivity |].
    rewrite Hx, Hh in Hspec. exact (Hcase _ _ _ Hspec).
  - intros Hx Hn2 Hn3 Hh resolved Hr. apply String.eqb_eq in Hx.
    apply String.eqb_neq in Hh.
    destruct (usableb w2 dir2); [exfalso; apply Hn2, U2; reflexivity |].
    destruct (usableb w3 dir3); [exfalso; apply Hn3, U3; reflexivity |].
    rewrite Hx, Hh, Hr in Hspec. exact (Hcase _ _ _ Hspec).
Qed.

Lemma getRuntimeDir_first_resolution_witness :
  fst (getRuntimeDir (start (Sim.with_xdg "/xdg"))) = ("/xdg", None) /\
  fst (getRuntimeDir (start (Sim.with_run_user 448 1000)))
    = ("/run/user/1000", None) /\
  fst (getRuntimeDir (start Sim.tmp_only)) = ("/tmp/run-1000", None) /\
  fst (getRuntimeDir (start (Sim.with_run_user 493 1000)))
    = ("", Some (errorString "neither XDG_RUNTIME_DIR nor HOME was set non-empty")) /\
  fst (getRuntimeDir (start Sim.home_only)) = ("/home/u/rundir", None).
Proof.
  split; [| split; [| split; [| split]]].
  - refine (proj1 (getRuntimeDir_first_resolution
                     (start (Sim.with_xdg "/xdg")) eq_refl) _).
    vm_compute. discriminate.
  - refine (proj1 (proj2 (getRuntimeDir_first_resolution
                            (start (Sim.with_run_user 448 1000)) eq_refl)) _ _).
    + reflexivity.
    + exists (mkFileInfo 448 1000). repeat split.
  - refine (proj1 (proj2 (proj2 (getRuntimeDir_first_resolution
                                   (start Sim.tmp_only) eq_refl))) _ _ _).
    + reflexivity.
    + intros [fi [Hs _]]. vm_compute in Hs. discriminate Hs.
    + exists (mkFileInfo (Z.lor Sim.ModeDir 448) 1000). repeat split.
  - refine (proj1 (proj2 (proj2 (proj2 (getRuntimeDir_first_resolution
                                          (start (Sim.with_run_user 493 1000))
                                          eq_refl)))) _ _ _ _).
    + reflexivity.
    + intros [fi [Hs [_ Hp]]]. vm_compute in Hs. inversion Hs; subst fi.
      vm_compute in Hp. discriminate Hp.
    + intros [fi [Hs _]]. vm_compute in Hs. discriminate Hs.
    + reflexivity.
  - refine (proj2 (proj2 (proj2 (proj2 (getRuntimeDir_first_resolution
                                          (start Sim.home_only) eq_refl))))
                  _ _ _ _ "/home/u" _).
    + reflexivity.
    + intros [fi [Hs _]]. vm_compute in Hs. discriminate Hs.
    + intros [fi [Hs _]]. vm_compute in Hs. discriminate Hs.
    + vm_compute. discriminate.
    + reflexivity.
Defined.

(** C6. With [XDG_RUNTIME_DIR] set to a non-empty value [v], a call to
    [getRuntimeDir] returns [v] itself with a nil error, leaves the world as
    it is, and none of the calls it makes is a file-system operation.  This
    holds for the call that resolves the directory and, [v] being cached
    by it, for every call after it. *)
Theorem getRuntimeDir_env_override
    {W : Type} `{OS W} (st : State W) (v : string) :
  v <> "" ->
  Getenv (world st) "XDG_RUNTIME_DIR" = v ->
  rootlessRuntimeDirOnce st = false \/ rootlessRuntimeDir st = v ->
  let r := getRuntimeDir st in
  fst r = (v, None) /\
  world (snd r) = world st /\
  rootlessRuntimeDirOnce (snd r) = true /\
  rootlessRuntimeDir (snd r) = v /\
  exists evs,
    trace (snd r) = (trace st ++ evs)%list /\
    forallb (fun e => negb (is_fs_event e)) evs = true.
Proof.
  intros Hv Hx Hinv r. subst r.
  destruct (rootlessRuntimeDirOnce st) eqn:Honce.
  - destruct Hinv as [Hfalse | Hdir]; [discriminate |].
    rewrite (getRuntimeDir_cached st Honce). cbn [fst snd].
    rewrite Hdir. repeat split; try assumption.
    exists []. split; [symmetry; apply app_nil_r | reflexivity].
  - clear Hinv. apply String.eqb_neq in Hv. subst v.
    destruct st as [w o d t]. cbn [world rootlessRuntimeDirOnce] in *. subst o.
    run_go. repeat (rewrite Hv; run_go).
    repeat split.
    exists [EvGetenv "XDG_RUNTIME_DIR"; EvGetRootlessUID].
    split; [rewrite <- app_assoc; reflexivity | reflexivity].
Qed.

Lemma getRuntimeDir_env_override_witness :
  let st := start (Sim.with_xdg "/run/user/1000") in
  let r := getRuntimeDir st in
  fst r = ("/run/user/1000", None) /\
  world (snd r) = world st /\
  rootlessRuntimeDirOnce (snd r) = true /\
  rootlessRuntimeDir (snd r) = "/run/user/1000" /\
  exists evs,
    trace (snd r) = (trace st ++ evs)%list /\
    forallb (fun e => negb (is_fs_event e)) evs = true.
Proof.
  apply (getRuntimeDir_env_override
           (start (Sim.with_xdg "/run/user/1000")) "/run/user/1000").
  - discriminate.
  - reflexivity.
  - left. reflexivity.
Defined.

(** C10. When the process is not rootless, [defaultTmpDir] returns
    [/var/run/libpod] with a nil error; the only call it makes is the
    question [unshare.IsRootless]: it reads no environment variable, performs
    no file-system operation and leaves the world and the cached runtime
    directory as they were. *)
Theorem defaultTmpDir_not_rootless
    {W : Type} `{OS W} (st : State W) :
  IsRootless (world st) = false ->
  let r := defaultTmpDir st in
  fst r = ("/var/run/libpod", None) /\
  world (snd r) = world st /\
  rootlessRuntimeDirOnce (snd r) = rootlessRuntimeDirOnce st /\
  rootlessRuntimeDir (snd r) = rootlessRuntimeDir st /\
  trace (snd r) = (trace st ++ [EvIsRootless])%list /\
  is_env_event EvIsRootless = false /\
  is_fs_event EvIsRootless = false.
Proof.
  intros Hroot r. subst r.
  unfold defaultTmpDir, unshare_IsRootless, query, emit, bind, ret.
  cbn [fst snd]. rewrite Hroot. cbn. repeat split.
Qed.

Lemma defaultTmpDir_not_rootless_witness :
  let st := start (Sim.mkMachine [("XDG_RUNTIME_DIR", "/xdg")] 0 [] [] []) in
  let r := defaultTmpDir st in
  fst r = ("/var/run/libpod", None) /\
  world (snd r) = world st /\
  rootlessRuntimeDirOnce (snd r) = rootlessRuntimeDirOnce st /\
  rootlessRuntimeDir (snd r) = rootlessRuntimeDir st /\
  trace (snd r) = (trace st ++ [EvIsRootless])%list /\
  is_env_event EvIsRootless = false /\
  is_fs_event EvIsRootless = false.
Proof.
  apply (defaultTmpDir_not_rootless
           (start (Sim.mkMachine [("XDG_RUNTIME_DIR", "/xdg")] 0 [] [] []))).
  reflexivity.
Defined.

(** * Further properties *)

(** ** The pattern *)


Lemma take_app (a s : string) (n : nat) :
  take (String.length a + n) (a ++ s) = (a ++ take n s)%string.
Proof.
  induction a as [| c a IH]; simpl; [reflexivity | now rewrite IH].
Qed.

Lemma drop_app (a s : string) : drop (String.length a) (a ++ s) = s.
Proof.
  induction a as [| c a IH]; simpl; [reflexivity | exact IH].
Qed.

Lemma take_length_le (k : nat) (s : string) :
  (String.length (take k s) <= k)%nat.
Proof.
  revert s. induction k as [| k IH]; intros [| c s']; simpl; try lia.
  specialize (IH s'). lia.
Qed.


Lemma has_prefix_refl_app (l s : string) : has_prefix l (l ++ s) = true.
Proof.
  induction l as [| a l IH]; simpl; [reflexivity |].
  now rewrite Ascii.eqb_refl, IH.
Qed.










Lemma try_lengths_first {A} (f : nat -> option A) (k : nat) (r : A) :
  (1 <= k)%nat -> f k = Some r -> try_lengths f k = Some r.
Proof.
  intros Hk Hf. destruct k as [| k']; [lia |]. simpl. now rewrite Hf.
Qed.

Lemma digit_run_app (g rest : string) :
  all_digits g = true -> starts_with_digit rest = false ->
  digit_run (g ++ rest) = String.length g.
Proof.
  intros Hg Hr.
  induction g as [| c g IH];
    cbn [digit_run append all_digits String.length] in *.
  - destruct rest as [| c r]; [reflexivity |].
    cbn [digit_run starts_with_digit] in *. now rewrite Hr.
  - apply andb_true_iff in Hg. destruct Hg as [Hc Hg]. rewrite Hc.
    now rewrite IH.
Qed.

Lemma match_items_Lit_app (l : string) (p : list item) (x : string)
      (caps : list string) (n : nat) :
  match_items p x = Some (caps, n) ->
  match_items (Lit l :: p) (l ++ x) = Some (caps, (String.length l + n)%nat).
Proof.
  intros Hm. simpl. now rewrite has_prefix_refl_app, drop_app, Hm.
Qed.

Lemma match_items_Digits_app (g : string) (p : list item) (x : string)
      (caps : list string) (n : nat) :
  digit_group g -> starts_with_digit x = false ->
  match_items p x = Some (caps, n) ->
  match_items (Digits :: p) (g ++ x) = Some (g :: caps, (String.length g + n)%nat).
Proof.
  intros [Hne Hd] Hx Hm. cbn [match_items].
  rewrite (digit_run_app g x Hd Hx).
  apply try_lengths_first.
  { destruct g; [contradiction | simpl; lia]. }
  rewrite drop_app, Hm.
  replace (String.length g) with (String.length g + 0)%nat at 1 by lia.
  rewrite take_app.
  assert (Hnil : take 0 x = ""%string) by (destruct x; reflexivity).
  rewrite Hnil.
  assert (Hr : forall y : string, (y ++ "")%string = y).
  { induction y as [| c0 y IH]; simpl; [reflexivity | now rewrite IH]. }
  now rewrite Hr.
Qed.

Lemma match_items_AnyChar_dot (p : list item) (x : string)
      (caps : list string) (n : nat) :
  match_items p x = Some (caps, n) ->
  match_items (AnyChar :: p) ("." ++ x) = Some (caps, S n).
Proof.
  intros Hm. cbn [match_items append].
  change (rune_width (String "." x)) with 1%nat.
  cbn [drop Ascii.eqb Bool.eqb]. now rewrite Hm.
Qed.

(** X2. Well-formed output is parsed into its components.  For three groups
    of digits and a rest that does not begin with a digit, the text
    ["conmon version <g1>.<g2>.<g3><rest>"] matches, the match stops before
    the rest, and the captured groups are exactly the three components. *)
Theorem FindStringSubmatch_well_formed (g1 g2 g3 rest : string) :
  digit_group g1 -> digit_group g2 -> digit_group g3 ->
  starts_with_digit rest = false ->
  FindStringSubmatch
    ("conmon version " ++ g1 ++ "." ++ g2 ++ "." ++ g3 ++ rest) =
  [("conmon version " ++ g1 ++ "." ++ g2 ++ "." ++ g3)%string; g1; g2; g3].
Proof.
  intros H1 H2 H3 Hrest.
  assert (Hm : match_items conmonPattern
                 ("conmon version " ++ g1 ++ "." ++ g2 ++ "." ++ g3 ++ rest) =
               Some ([g1; g2; g3],
                     (String.length "conmon version " +
                      (String.length g1 +
                       S (String.length g2 + S (String.length g3 + 0))))%nat)).
  { unfold conmonPattern.
    apply match_items_Lit_app.
    apply match_items_Digits_app; [exact H1 | reflexivity |].
    apply match_items_AnyChar_dot.
    apply match_items_Digits_app; [exact H2 | reflexivity |].
    apply match_items_AnyChar_dot.
    apply match_items_Digits_app; [exact H3 | exact Hrest |].
    reflexivity. }
  unfold FindStringSubmatch. rewrite Hm. f_equal.
  rewrite (take_app "conmon version "), (take_app g1).
  change (S (String.length g2 + S (String.length g3 + 0)))
    with (String.length "." + (String.length g2 + S (String.length g3 + 0)))%nat.
  rewrite (take_app "."), (take_app g2).
  change (S (String.length g3 + 0))
    with (String.length "." + (String.length g3 + 0))%nat.
  rewrite (take_app "."), (take_app g3).
  assert (Hnil : take 0 rest = ""%string) by (destruct rest; reflexivity).
  rewrite Hnil.
  assert (Hr : forall y : string, (y ++ "")%string = y).
  { induction y as [| c0 y IH]; simpl; [reflexivity | now rewrite IH]. }
  now rewrite Hr.
Qed.

Lemma FindStringSubmatch_well_formed_witness :
  FindStringSubmatch
    ("conmon version " ++ "2" ++ "." ++ "0" ++ "." ++ "24"
       ++ ", commit: 1d6c2d1e8f2d5e4f3a9b") =
  [("conmon version " ++ "2" ++ "." ++ "0" ++ "." ++ "24")%string;
   "2"; "0"; "24"].
Proof.
  apply (FindStringSubmatch_well_formed
           "2" "0" "24" ", commit: 1d6c2d1e8f2d5e4f3a9b").
  - split; [discriminate | reflexivity].
  - split; [discriminate | reflexivity].
  - split; [discriminate | reflexivity].
  - reflexivity.
Defined.

(** ** More on the version gate *)

(** X3. The answers [probeConmon] can give.  When [cmd.Run] fails the
    answer is its error.  When it succeeds the answer is nil,
    [ErrConmonOutdated], or the "version format changed" error around the
    range error of a captured group of digits that does not fit an [int];
    no other error is ever produced. *)
Theorem probeConmon_answers {W : Type} `{OS W} (st : State W) (bin : string) :
  let result := fst (probeConmon bin st) in
  match snd (snd (Run (world st) bin ["--version"])) with
  | Some e => result = Some (External e)
  | None =>
      result = None \/
      result = Some ErrConmonOutdated \/
      exists g, digit_group g /\
                Atoi g = inr (NumError "Atoi" g ErrRange) /\
                result = Some (Wrapped (NumError "Atoi" g ErrRange)
                                       _conmonVersionFormatErr)
  end.
Proof.
  intros result. subst result.
  destruct (Run (world st) bin ["--version"]) as [w' [out [e |]]] eqn:HR;
    cbn [snd].
  - exact (probeConmon_run_failed _ _ _ _ _ HR).
  - rewrite (probeConmon_run_ok _ _ _ _ HR).
    destruct (FindStringSubmatch_shape out)
      as [Hnil | [whole [g1 [g2 [g3 [Hm [_ [H1 [H2 H3]]]]]]]]].
    + left. apply probeConmon_check_unmatched. rewrite Hnil. discriminate.
    + unfold probeConmon_check. rewrite Hm. cbn [List.length Nat.eqb negb nth].
      destruct (Atoi_digit_group g1 H1) as [[v1 [E1 _]] | E1]; rewrite E1;
        [| right; right; exists g1; auto].
      destruct (v1 <? _conmonMinMajorVersion); [right; left; reflexivity |].
      destruct (v1 >? _conmonMinMajorVersion); [left; reflexivity |].
      destruct (Atoi_digit_group g2 H2) as [[v2 [E2 _]] | E2]; rewrite E2;
        [| right; right; exists g2; auto].
      destruct (v2 <? _conmonMinMinorVersion); [right; left; reflexivity |].
      destruct (v2 >? _conmonMinMinorVersion); [left; reflexivity |].
      destruct (Atoi_digit_group g3 H3) as [[v3 [E3 _]] | E3]; rewrite E3;
        [| right; right; exists g3; auto].
      destruct (v3 <? _conmonMinPatchVersion); [right; left; reflexivity |].
      destruct (v3 >? _conmonMinPatchVersion); left; reflexivity.
Qed.

(** X4. A major version other than 2 decides alone.  Below 2 the answer is
    [ErrConmonOutdated], above 2 it is nil; the minor and patch groups are
    not parsed, so it does not matter whether they fit an [int]. *)
Theorem probeConmon_major_decides
    {W : Type} `{OS W} (st : State W) (bin out whole s1 s2 s3 : string)
    (w' : W) (major : Z) :
  Run (world st) bin ["--version"] = (w', (out, None)) ->
  FindStringSubmatch out = [whole; s1; s2; s3] ->
  Atoi s1 = inl major ->
  major <> 2 ->
  fst (probeConmon bin st) =
    if major <? 2 then Some ErrConmonOutdated else None.
Proof.
  intros HR Hm H1 Hne.
  rewrite (probeConmon_run_ok _ _ _ _ HR).
  unfold probeConmon_check. rewrite Hm. cbn [List.length Nat.eqb negb nth].
  rewrite H1. unfold _conmonMinMajorVersion. rewrite Z.gtb_ltb.
  destruct (Z.ltb_spec major 2); [reflexivity |].
  destruct (Z.ltb_spec 2 major); [reflexivity | lia].
Qed.

Lemma probeConmon_major_decides_witness :
  fst (probeConmon "/usr/bin/conmon"
         (start (Sim.with_conmon "conmon version 3.99999999999999999999.0"))) =
    if 3 <? 2 then Some ErrConmonOutdated else None.
Proof.
  apply (probeConmon_major_decides
           (start (Sim.with_conmon "conmon version 3.99999999999999999999.0"))
           "/usr/bin/conmon" "conmon version 3.99999999999999999999.0"
           "conmon version 3.99999999999999999999.0"
           "3" "99999999999999999999" "0"
           (Sim.with_conmon "conmon version 3.99999999999999999999.0") 3).
  - reflexivity.
  - reflexivity.
  - reflexivity.
  - discriminate.
Defined.

(** ** More on the runtime directory *)

Section MoreRuntimeDir.

Context {W : Type} `{OS W}.

(** After any call the [Once] has run. *)
Lemma getRuntimeDir_sets_once (st : State W) :
  rootlessRuntimeDirOnce (snd (getRuntimeDir st)) = true.
Proof.
  destruct (rootlessRuntimeDirOnce st) eqn:Honce.
  - rewrite (getRuntimeDir_cached st Honce). exact Honce.
  - exact (proj1 (proj2 (getRuntimeDir_first st Honce))).
Qed.

Lemma after_calls_cached (changes : list (W -> W)) (st : State W) :
  rootlessRuntimeDirOnce st = true ->
  trace (after_calls changes st) = trace st /\
  rootlessRuntimeDir (after_calls changes st) = rootlessRuntimeDir st /\
  world (after_calls changes st) = fold_left (fun w f => f w) changes (world st).
Proof.
  revert st. induction changes as [| f rest IH]; intros st Honce; simpl.
  - repeat split.
  - rewrite (getRuntimeDir_cached (with_world f st)) by exact Honce.
    cbn [snd]. destruct (IH (with_world f st) Honce) as [Ht [Hd Hw]].
    rewrite Ht, Hd, Hw. repeat split.
Qed.

End MoreRuntimeDir.

(** X5. The resolution runs at most once.  Whatever the first call did and
    whether it succeeded or not, the calls after it record no event, leave
    [rootlessRuntimeDir] alone and leave the world exactly as the rest of
    the system made it. *)
Theorem getRuntimeDir_later_calls_silent
    {W : Type} `{OS W} (st : State W) (changes : list (W -> W)) :
  let st1 := snd (getRuntimeDir st) in
  trace (after_calls changes st1) = trace st1 /\
  rootlessRuntimeDir (after_calls changes st1) = rootlessRuntimeDir st1 /\
  world (after_calls changes st1) =
    fold_left (fun w f => f w) changes (world st1).
Proof.
  intros st1. apply after_calls_cached. apply getRuntimeDir_sets_once.
Qed.

(** X6. A successful resolution is cached.  If the call that resolves the
    directory returns [dir] with a nil error, every later call returns
    [dir] with a nil error, whatever has become of the environment and of
    the directory in between. *)
Theorem getRuntimeDir_success_cached
    {W : Type} `{OS W} (st : State W) (dir : string) (changes : list (W -> W)) :
  rootlessRuntimeDirOnce st = false ->
  fst (getRuntimeDir st) = (dir, None) ->
  Forall (fun r => r = (dir, None))
         (later_calls changes (snd (getRuntimeDir st))).
Proof.
  intros Honce Hres.
  destruct (getRuntimeDir_first st Honce) as [Hfst [Hdone [Hdir _]]].
  cbv zeta in Hfst, Hdone, Hdir.
  rewrite Hres in Hfst.
  destruct (fst (getRuntimeDir_func st)) as [e |]; [discriminate |].
  injection Hfst as Hd. subst dir. rewrite <- Hdir.
  apply later_calls_cached. exact Hdone.
Qed.

Lemma getRuntimeDir_success_cached_witness :
  Forall (fun r => r = ("/tmp/run-1000", None))
         (later_calls [fun w => w; fun _ => Sim.with_xdg "/xdg";
                       fun _ => Sim.bare]
                      (snd (getRuntimeDir (start Sim.tmp_only)))).
Proof.
  apply (getRuntimeDir_success_cached (start Sim.tmp_only) "/tmp/run-1000"
           [fun w => w; fun _ => Sim.with_xdg "/xdg"; fun _ => Sim.bare]).
  - reflexivity.
  - reflexivity.
Defined.

(** X7. The resolving call never returns an empty path without an error.
    When the call that resolves the directory returns a nil error, the path
    it returns is not the empty string. *)
Theorem getRuntimeDir_success_nonempty
    {W : Type} `{OS W} (st : State W) (dir : string) :
  rootlessRuntimeDirOnce st = false ->
  fst (getRuntimeDir st) = (dir, None) ->
  dir <> "".
Proof.
  intros Honce Hres.
  destruct (getRuntimeDir_first st Honce) as [Hfst _].
  destruct (getRuntimeDir_func_spec st) as [_ Hspec].
  cbv zeta in Hfst, Hspec. rewrite Hres in Hfst.
  destruct (fst (getRuntimeDir_func st)) as [e |]; [discriminate |].
  injection Hfst as Hd. rewrite <- Hd in Hspec. clear Hd Hres.
  destruct (Getenv (world st) "XDG_RUNTIME_DIR" =? "")%string eqn:Hx;
    cbn [negb] in Hspec.
  - repeat match type of Hspec with
           | _ = (if ?c then _ else _) => destruct c
           | _ = match ?c with inl _ => _ | inr _ => _ end => destruct c
           end;
      try discriminate Hspec;
      apply (f_equal (fun t => snd (fst t))) in Hspec; cbn [fst snd] in Hspec;
      rewrite Hspec;
      first [ apply userRunDir_nonempty
            | apply tmpRunDir_nonempty
            | apply filepath_Join_nonempty, Exists_cons_tl, Exists_cons_hd;
              discriminate ].
  - apply (f_equal (fun t => snd (fst t))) in Hspec. cbn [fst snd] in Hspec.
    rewrite Hspec. now apply String.eqb_neq.
Qed.

Lemma getRuntimeDir_success_nonempty_witness : "/home/u/rundir" <> "".
Proof.
  apply (getRuntimeDir_success_nonempty (start Sim.home_only) "/home/u/rundir").
  - reflexivity.
  - reflexivity.
Defined.

(** X8. Why a resolution fails.  The resolving call returns an error only
    when [XDG_RUNTIME_DIR] is empty, neither [/run/user/<uid>] nor
    [<tmp>/run-<uid>] is usable, and [HOME] is empty or cannot be resolved;
    the error says which of the two, the second carrying the error of
    [EvalSymlinks]; the path returned with it is empty. *)
Theorem getRuntimeDir_failure_causes
    {W : Type} `{OS W} (st : State W) (dir : string) (e : error) :
  rootlessRuntimeDirOnce st = false ->
  fst (getRuntimeDir st) = (dir, Some e) ->
  let w := world st in
  let uid := GetRootlessUID w in
  let dir2 := userRunDir uid in
  let w2 := fst (MkdirAll w dir2 mode_0700) in
  let dir3 := tmpRunDir (TempDir w2) uid in
  let w3 := fst (MkdirAll w2 dir3 mode_0700) in
  let home := Getenv w3 "HOME" in
  dir = "" /\
  Getenv w "XDG_RUNTIME_DIR" = "" /\
  ~ usable w2 dir2 /\
  ~ usable w3 dir3 /\
  ((home = "" /\
    e = errorString "neither XDG_RUNTIME_DIR nor HOME was set non-empty") \/
   (home <> "" /\
    exists cause, EvalSymlinks w3 home = inr cause /\
                  e = Wrapped (External cause) ("cannot resolve " ++ home))).
Proof.
  intros Honce Hres w uid dir2 w2 dir3 w3 home.
  destruct (getRuntimeDir_first st Honce) as [Hfst _].
  destruct (getRuntimeDir_func_spec st) as [_ Hspec].
  cbv zeta in Hfst, Hspec.
  fold w uid dir2 w2 dir3 w3 home in Hspec.
  rewrite Hres in Hfst.
  destruct (fst (getRuntimeDir_func st)) as [e' |]; [| discriminate].
  injection Hfst as Hd He. subst dir e'.
  pose proof (usableb_usable w2 dir2) as U2.
  pose proof (usableb_usable w3 dir3) as U3.
  destruct (Getenv w "XDG_RUNTIME_DIR" =? "")%string eqn:Hx;
    cbn [negb] in Hspec; [| discriminate].
  destruct (usableb w2 dir2) eqn:Hu2; [discriminate |].
  destruct (usableb w3 dir3) eqn:Hu3; [discriminate |].
  split; [reflexivity |].
  split; [now apply String.eqb_eq |].
  split; [intros Hu; apply U2 in Hu; congruence |].
  split; [intros Hu; apply U3 in Hu; congruence |].
  destruct (home =? "")%string eqn:Hh.
  - left. split; [now apply String.eqb_eq | congruence].
  - right. split; [now apply String.eqb_neq |].
    destruct (EvalSymlinks w3 home) as [resolved | cause]; [discriminate |].
    exists cause. split; [reflexivity | congruence].
Qed.

Lemma getRuntimeDir_failure_causes_witness :
  let w := world (start sim_home_missing) in
  let uid := GetRootlessUID w in
  let dir2 := userRunDir uid in
  let w2 := fst (MkdirAll w dir2 mode_0700) in
  let dir3 := tmpRunDir (TempDir w2) uid in
  let w3 := fst (MkdirAll w2 dir3 mode_0700) in
  let home := Getenv w3 "HOME" in
  let e := Wrapped (External (PathError "lstat" "/home/gone" Sim.ENOENT))
                   "cannot resolve /home/gone" in
  "" = "" /\
  Getenv w "XDG_RUNTIME_DIR" = "" /\
  ~ usable w2 dir2 /\
  ~ usable w3 dir3 /\
  ((home = "" /\
    e = errorString "neither XDG_RUNTIME_DIR nor HOME was set non-empty") \/
   (home <> "" /\
    exists cause, EvalSymlinks w3 home = inr cause /\
                  e = Wrapped (External cause) ("cannot resolve " ++ home))).
Proof.
  apply (getRuntimeDir_failure_causes (start sim_home_missing) ""
           (Wrapped (External (PathError "lstat" "/home/gone" Sim.ENOENT))
                    "cannot resolve /home/gone")).
  - reflexivity.
  - reflexivity.
Defined.



(** The cases of one candidate directory, for a statement about the
    trace. *)
Ltac candidate_trace :=
  match goal with
  | |- context [MkdirAll ?w ?p ?m] =>
      destruct (MkdirAll w p m) as [? [? |]]
  end; run_go;
  match goal with
  | |- context [Stat ?w ?p] => destruct (Stat w p) as [? | ?]
  end; run_go;
  try match goal with
  | |- context [(Uid ?fi =? ?u)%Z] => destruct (Uid fi =? u)%Z
  end; run_go;
  try match goal with
  | |- context [(Perm ?m =? ?p)%Z] => destruct (Perm m =? p)%Z
  end; run_go.

Ltac close_trace :=
  eexists; split;
  [ repeat rewrite <- app_assoc; reflexivity | reflexivity ].

(** X10. What [getRuntimeDir] never does.  Every call it makes is one of:
    reading [XDG_RUNTIME_DIR], [TMPDIR] or [HOME], asking for the two user
    ids, [MkdirAll] with mode 0700, [Stat], [EvalSymlinks], a debug message.
    It never changes the permissions of a directory that exists, never
    calls [Mkdir] or [Chmod], and runs no command. *)
Theorem getRuntimeDir_calls {W : Type} `{OS W} (st : State W) :
  exists evs,
    trace (snd (getRuntimeDir st)) = (trace st ++ evs)%list /\
    forallb getRuntimeDir_event evs = true.
Proof.
  destruct (rootlessRuntimeDirOnce st) eqn:Honce.
  - rewrite (getRuntimeDir_cached st Honce). exists [].
    split; [symmetry; apply app_nil_r | reflexivity].
  - destruct st as [w o d t]. cbn [rootlessRuntimeDirOnce] in Honce. subst o.
    pose proof (eqb_nonempty _ (userRunDir_nonempty (GetRootlessUID w))) as N2.
    unfold userRunDir in N2.
    run_go.
    destruct (Getenv w "XDG_RUNTIME_DIR" =? "")%string eqn:Hx; run_go.
    + candidate_trace; rewrite ?N2, ?Hx; run_go; try close_trace.
      all: match goal with
           | |- context [MkdirAll ?w2 (filepath_Join [?tmp; ?leaf]) _] =>
               assert (N3 : (filepath_Join [tmp; leaf] =? "")%string = false)
                 by (apply eqb_nonempty, filepath_Join_nonempty,
                       Exists_cons_tl, Exists_cons_hd; discriminate)
           end.
      all: candidate_trace; rewrite ?N3, ?Hx; run_go; try close_trace.
      all: match goal with
           | |- context [(Getenv ?w3 "HOME" =? "")%string] =>
               destruct (Getenv w3 "HOME" =? "")%string;
               [| destruct (EvalSymlinks w3 (Getenv w3 "HOME"))]
           end; run_go; close_trace.
    + repeat (rewrite Hx; run_go). close_trace.
Qed.

(** ** The temporary directory of a rootless process *)

Ltac run_tmp :=
  cbv beta iota zeta delta
    [defaultTmpDir bind ret unshare_IsRootless os_Mkdir os_Chmod query command
     emit errors_Wrap world rootlessRuntimeDirOnce rootlessRuntimeDir trace
     fst snd negb].

Ltac run_tmp_in HG :=
  cbv beta iota zeta delta
    [defaultTmpDir bind ret unshare_IsRootless os_Mkdir os_Chmod query command
     emit errors_Wrap world rootlessRuntimeDirOnce rootlessRuntimeDir trace
     fst snd negb] in HG.

(** X11. An error of [getRuntimeDir] is passed on.  In a rootless process
    whose [getRuntimeDir] call returns an error, [defaultTmpDir] returns the
    empty string and that same error, and does nothing after that call: no
    directory is created and no mode is set. *)
Theorem defaultTmpDir_runtime_dir_error
    {W : Type} `{OS W} (st st2 : State W) (dir : string) (e : error) :
  IsRootless (world st) = true ->
  getRuntimeDir (snd (unshare_IsRootless st)) = ((dir, Some e), st2) ->
  defaultTmpDir st = (("", Some e), st2).
Proof.
  intros Hroot HG. destruct st as [w o d t].
  run_tmp_in HG. run_tmp. cbn [world] in Hroot.
  rewrite Hroot, HG. reflexivity.
Qed.

Lemma defaultTmpDir_runtime_dir_error_witness :
  defaultTmpDir (start Sim.bare) =
    (("", Some (errorString "neither XDG_RUNTIME_DIR nor HOME was set non-empty")),
     snd (getRuntimeDir (snd (unshare_IsRootless (start Sim.bare))))).
Proof.
  apply (defaultTmpDir_runtime_dir_error (start Sim.bare) _ "").
  - reflexivity.
  - reflexivity.
Defined.

(** X12. The rootless temporary directory.  In a rootless process whose
    runtime directory is [dir], [defaultTmpDir] calls [Mkdir] on
    [dir/libpod] with mode 0700 and the sticky bit.  If that succeeds, or
    fails because the directory exists and the following [Chmod] to the
    same mode succeeds, the result is [dir/libpod/tmp] with a nil error;
    [Chmod] is called only in the second case, and the directory returned
    is itself never created. *)
Theorem defaultTmpDir_rootless_success
    {W : Type} `{OS W} (st st2 : State W) (dir : string) :
  IsRootless (world st) = true ->
  getRuntimeDir (snd (unshare_IsRootless st)) = ((dir, None), st2) ->
  let libpod := filepath_Join [dir; "libpod"] in
  let mode := Z.lor mode_0700 ModeSticky in
  let r := defaultTmpDir st in
  (forall w3, Mkdir (world st2) libpod mode = (w3, None) ->
     fst r = (filepath_Join [libpod; "tmp"], None) /\
     world (snd r) = w3 /\
     trace (snd r) = (trace st2 ++ [EvMkdir libpod mode])%list) /\
  (forall w3 e w4,
     Mkdir (world st2) libpod mode = (w3, Some e) ->
     os_IsExist e = true ->
     Chmod w3 libpod mode = (w4, None) ->
     fst r = (filepath_Join [libpod; "tmp"], None) /\
     world (snd r) = w4 /\
     trace (snd r) =
       (trace st2 ++ [EvMkdir libpod mode; EvChmod libpod mode])%list).
Proof.
  intros Hroot HG libpod mode r. subst r libpod mode.
  destruct st as [w o d t]. destruct st2 as [w2 o2 d2 t2].
  run_tmp_in HG. cbn [world] in Hroot. split.
  - intros w3 HM. cbn [world] in HM. run_tmp. rewrite Hroot, HG. run_tmp. rewrite HM.
    repeat split.
  - intros w3 e w4 HM Hex HC. cbn [world] in HM. run_tmp. rewrite Hroot, HG. run_tmp.
    rewrite HM. run_tmp. rewrite Hex. run_tmp. rewrite HC.
    repeat split. cbn [trace]. now rewrite <- app_assoc.
Qed.

Lemma defaultTmpDir_rootless_success_witness :
  (let r := defaultTmpDir (start sim_libpod_creatable) in
   fst r = ("/xdg/libpod/tmp", None) /\
   trace (snd r) =
     [EvIsRootless; EvGetenv "XDG_RUNTIME_DIR"; EvGetRootlessUID;
      EvMkdir "/xdg/libpod" (Z.lor mode_0700 ModeSticky)]) /\
  (let r := defaultTmpDir (start sim_libpod_exists) in
   fst r = ("/xdg/libpod/tmp", None) /\
   Stat (world (snd r)) "/xdg/libpod" =
     inl (mkFileInfo (Z.lor Sim.ModeDir (Z.lor mode_0700 ModeSticky)) 1000)).
Proof.
  split.
  - destruct (defaultTmpDir_rootless_success
                (start sim_libpod_creatable)
                (snd (getRuntimeDir
                        (snd (unshare_IsRootless (start sim_libpod_creatable)))))
                "/xdg") as [P _]; [reflexivity | reflexivity |].
    edestruct P as [Hr [_ Ht]]; [reflexivity |].
    split; [exact Hr | exact Ht].
  - destruct (defaultTmpDir_rootless_success
                (start sim_libpod_exists)
                (snd (getRuntimeDir
                        (snd (unshare_IsRootless (start sim_libpod_exists)))))
                "/xdg") as [_ P]; [reflexivity | reflexivity |].
    edestruct P as [Hr [Hw _]]; [reflexivity | reflexivity | reflexivity |].
    split; [exact Hr |]. rewrite Hw. reflexivity.
Defined.

(** X13. How a rootless [defaultTmpDir] fails after the runtime directory is
    known.  If [Mkdir] on [dir/libpod] fails for another reason than the
    directory existing, the result is that error wrapped with "cannot mkdir
    dir/libpod" and [Chmod] is not called.  If the directory exists and
    [Chmod] fails, the result is the error of [Chmod] wrapped with "could
    not set sticky bit on dir/libpod".  The path returned is empty in both
    cases. *)
Theorem defaultTmpDir_rootless_failure
    {W : Type} `{OS W} (st st2 : State W) (dir : string) :
  IsRootless (world st) = true ->
  getRuntimeDir (snd (unshare_IsRootless st)) = ((dir, None), st2) ->
  let libpod := filepath_Join [dir; "libpod"] in
  let mode := Z.lor mode_0700 ModeSticky in
  let r := defaultTmpDir st in
  (forall w3 e,
     Mkdir (world st2) libpod mode = (w3, Some e) ->
     os_IsExist e = false ->
     fst r = ("", Some (Wrapped (External e) ("cannot mkdir " ++ libpod))) /\
     world (snd r) = w3 /\
     trace (snd r) = (trace st2 ++ [EvMkdir libpod mode])%list) /\
  (forall w3 e w4 e',
     Mkdir (world st2) libpod mode = (w3, Some e) ->
     os_IsExist e = true ->
     Chmod w3 libpod mode = (w4, Some e') ->
     fst r = ("", Some (Wrapped (External e')
                          ("could not set sticky bit on " ++ libpod))) /\
     world (snd r) = w4).
Proof.
  intros Hroot HG libpod mode r. subst r libpod mode.
  destruct st as [w o d t]. destruct st2 as [w2 o2 d2 t2].
  run_tmp_in HG. cbn [world] in Hroot. split.
  - intros w3 e HM Hex. cbn [world] in HM. run_tmp. rewrite Hroot, HG. run_tmp. rewrite HM.
    run_tmp. rewrite Hex. repeat split.
  - intros w3 e w4 e' HM Hex HC. cbn [world] in HM. run_tmp. rewrite Hroot, HG. run_tmp.
    rewrite HM. run_tmp. rewrite Hex. run_tmp. rewrite HC. repeat split.
Qed.

Lemma defaultTmpDir_rootless_failure_witness :
  fst (defaultTmpDir (start (Sim.with_xdg "/xdg"))) =
    ("", Some (Wrapped (External (PathError "mkdir" "/xdg/libpod" Sim.EACCES))
                       "cannot mkdir /xdg/libpod")) /\
  fst (defaultTmpDir (start (mkFrozen "/xdg"))) =
    ("", Some (Wrapped (External (PathError "chmod" "/xdg/libpod" EPERM))
                       "could not set sticky bit on /xdg/libpod")).
Proof.
  split.
  - destruct (defaultTmpDir_rootless_failure
                (start (Sim.with_xdg "/xdg"))
                (snd (getRuntimeDir
                        (snd (unshare_IsRootless (start (Sim.with_xdg "/xdg"))))))
                "/xdg") as [P _]; [reflexivity | reflexivity |].
    edestruct P as [Hr _]; [reflexivity | reflexivity |]. exact Hr.
  - destruct (defaultTmpDir_rootless_failure
                (start (mkFrozen "/xdg"))
                (snd (getRuntimeDir
                        (snd (unshare_IsRootless (start (mkFrozen "/xdg"))))))
                "/xdg") as [_ P]; [reflexivity | reflexivity |].
    edestruct P as [Hr _]; [reflexivity | reflexivity | reflexivity |].
    exact Hr.
Defined.

Ltac defaultTmpDir_cases Htmp :=
  run_tmp;
  match goal with
  | |- context [IsRootless ?w] => destruct (IsRootless w)
  end; run_tmp; [| split; [discriminate | congruence]];
  match goal with
  | |- context [getRuntimeDir ?s] =>
      destruct (getRuntimeDir s) as [[? [? |]] ?]
  end; run_tmp; [split; [discriminate | reflexivity] |];
  match goal with
  | |- context [Mkdir ?w ?p ?m] => destruct (Mkdir w p m) as [? [? |]]
  end; run_tmp; [| split; [intros _; apply Htmp | congruence]];
  match goal with
  | |- context [os_IsExist ?e] => destruct (os_IsExist e)
  end; run_tmp; [| split; [discriminate | reflexivity]];
  match goal with
  | |- context [Chmod ?w ?p ?m] => destruct (Chmod w p m) as [? [? |]]
  end; run_tmp;
  [ split; [discriminate | reflexivity]
  | split; [intros _; apply Htmp | congruence] ].

Lemma filepath_Join_tmp_nonempty (libpod : string) :
  filepath_Join [libpod; "tmp"] <> "".
Proof.
  apply filepath_Join_nonempty, Exists_cons_tl, Exists_cons_hd. discriminate.
Qed.

Lemma defaultTmpDir_result_cases {W : Type} `{OS W} (st : State W) :
  (snd (fst (defaultTmpDir st)) = None -> fst (fst (defaultTmpDir st)) <> "") /\
  (snd (fst (defaultTmpDir st)) <> None -> fst (fst (defaultTmpDir st)) = "").
Proof.
  destruct st as [w o d t]. defaultTmpDir_cases filepath_Join_tmp_nonempty.
Qed.

(** X14. [defaultTmpDir] returns a path or an error, never both and never
    neither.  With a nil error the path is not empty; with an error the
    path is empty. *)
Theorem defaultTmpDir_path_or_error {W : Type} `{OS W} (st : State W) :
  let r := fst (defaultTmpDir st) in
  (snd r = None -> fst r <> "") /\ (snd r <> None -> fst r = "").
Proof.
  destruct st as [w o d t]. cbv zeta.
  pose proof filepath_Join_tmp_nonempty as Htmp.
  run_tmp.
  destruct (IsRootless w); run_tmp; [| split; [discriminate | congruence]].
  destruct (getRuntimeDir _) as [[dir [e |]] st2]; run_tmp;
    [split; [discriminate | reflexivity] |].
  destruct (Mkdir _ _ _) as [w3 [e |]]; run_tmp;
    [| split; [intros _; apply Htmp | congruence]].
  destruct (os_IsExist e); run_tmp;
    [| split; [discriminate | reflexivity]].
  destruct (Chmod _ _ _) as [w4 [e' |]]; run_tmp;
    [split; [discriminate | reflexivity]
    | split; [intros _; apply Htmp | congruence]].
Qed.

(** X15. [defaultTmpDir] after a failed resolution.  In a rootless process
    whose first call to [getRuntimeDir] failed, a later [defaultTmpDir] does
    not fail with it: it takes the empty cached directory, calls [Mkdir] on
    the relative path [libpod] and, when that succeeds, returns
    [libpod/tmp] with a nil error. *)
Theorem defaultTmpDir_after_failed_resolution
    {W : Type} `{OS W} (w w' : W) (f : W -> W) :
  snd (fst (getRuntimeDir (start w))) <> None ->
  let st := with_world f (snd (getRuntimeDir (start w))) in
  IsRootless (world st) = true ->
  Mkdir (world st) "libpod" (Z.lor mode_0700 ModeSticky) = (w', None) ->
  fst (defaultTmpDir st) = ("libpod/tmp", None) /\
  world (snd (defaultTmpDir st)) = w' /\
  trace (snd (defaultTmpDir st)) =
    (trace st ++ [EvIsRootless;
                  EvMkdir "libpod" (Z.lor mode_0700 ModeSticky)])%list.
Proof.
  intros Hfail st Hroot HM. subst st.
  destruct (getRuntimeDir_first (start w) eq_refl) as [Hres [Honce [Hdir _]]].
  cbv zeta in Hres, Honce, Hdir.
  destruct (fst (getRuntimeDir_func (start w))) as [e |] eqn:He;
    [| rewrite Hres in Hfail; contradiction].
  rewrite (getRuntimeDir_func_failure _ _ He) in Hdir. cbn in Hdir.
  remember (snd (getRuntimeDir (start w))) as st1 eqn:Est1.
  clear Est1 Hres He Hfail.
  destruct st1 as [w1 o1 d1 t1].
  cbn [rootlessRuntimeDirOnce rootlessRuntimeDir] in Honce, Hdir. subst o1 d1.
  unfold with_world in *. cbn [world rootlessRuntimeDirOnce rootlessRuntimeDir trace] in *.
  run_tmp. rewrite Hroot.
  rewrite getRuntimeDir_cached by reflexivity. run_tmp.
  change (filepath_Join [""; "libpod"]) with "libpod".
  rewrite HM. repeat split. now rewrite <- app_assoc.
Qed.

Lemma defaultTmpDir_after_failed_resolution_witness :
  let st := with_world (fun _ => sim_cwd_writable)
                       (snd (getRuntimeDir (start Sim.bare))) in
  fst (defaultTmpDir st) = ("libpod/tmp", None) /\
  world (snd (defaultTmpDir st)) =
    Sim.add_dir sim_cwd_writable "libpod" (Z.lor mode_0700 ModeSticky) /\
  trace (snd (defaultTmpDir st)) =
    (trace st ++ [EvIsRootless;
                  EvMkdir "libpod" (Z.lor mode_0700 ModeSticky)])%list.
Proof.
  apply (defaultTmpDir_after_failed_resolution Sim.bare
           (Sim.add_dir sim_cwd_writable "libpod" (Z.lor mode_0700 ModeSticky))
           (fun _ => sim_cwd_writable)).
  - discriminate.
  - reflexivity.
  - reflexivity.
Defined.

(** ** The default configuration *)

Ltac run_cfg :=
  cbv beta iota zeta delta
    [defaultConfigFromMemory storage_DefaultStoreOptions bind ret
     unshare_IsRootless unshare_GetRootlessUID query emit
     world rootlessRuntimeDirOnce rootlessRuntimeDir trace fst snd].

Section ConfigProperties.

Context {W : Type} `{OS W}.
Context {R : Type} `{Storage W R}.
Context {RuntimeStateStore : Type}.
Variable BoltDBStateStore : RuntimeStateStore.


(** What [defaultConfigFromMemory] returns, by the three ways it can end. *)
Lemma defaultConfigFromMemory_cases (vars : PackageVars) (st : State W) :
  let t := defaultTmpDir st in
  let w1 := world (snd t) in
  let rootless := IsRootless w1 in
  let uid := GetRootlessUID w1 in
  let s := DefaultStoreOptions w1 rootless uid in
  let r := fst (defaultConfigFromMemory (R := R) BoltDBStateStore vars st) in
  match snd (fst t) with
  | Some e => defaultConfigFromMemory (R := R) BoltDBStateStore vars st = (((None, Some e), []), snd t)
  | None =>
      world (snd (defaultConfigFromMemory (R := R) BoltDBStateStore vars st)) = fst s /\
      match snd s with
      | inr e =>
          r = ((None, Some (External e)), [EvDefaultStoreOptions rootless uid])
      | inl opts =>
          exists c,
            r = ((Some c, None),
                 EvDefaultStoreOptions rootless uid ::
                 (if (GraphRoot opts =? "")%string then
                    [EvWarnf "Storage configuration is unset - using hardcoded default graph root %q"
                             [_defaultGraphRoot]]
                  else [])) /\
            TmpDir c = fst (fst t) /\
            EventsLogFilePath c =
              filepath_Join [fst (fst t); "events"; "events.log"] /\
            GraphRoot (StorageConfig c) =
              (if (GraphRoot opts =? "")%string then _defaultGraphRoot
               else GraphRoot opts) /\
            StoreRest (StorageConfig c) = StoreRest opts /\
            StaticDir c = filepath_Join [GraphRoot (StorageConfig c); "libpod"] /\
            VolumePath c = filepath_Join [GraphRoot (StorageConfig c); "volumes"] /\
            OCIRuntime c = "runc" /\
            map_lookup "runc" (OCIRuntimes c) <> None /\
            Forall (fun n => map_lookup n (OCIRuntimes c) <> None)
                   (RuntimeSupportsJSON c ++ RuntimeSupportsNoCgroups c) /\
            InitPath c = DefaultInitPath vars /\
            InfraCommand c = DefaultInfraCommand vars /\
            InfraImage c = DefaultInfraImage vars /\
            DetachKeys c = DefaultDetachKeys vars
      end
  end.
Proof.
  cbv zeta. run_cfg.
  destruct (defaultTmpDir st) as [[tmp [e |]] [w1 o1 d1 t1]]; run_cfg;
    [reflexivity |].
  destruct (DefaultStoreOptions w1 (IsRootless w1) (GetRootlessUID w1))
    as [w2 [opts | e]]; run_cfg; (split; [reflexivity |]); [| reflexivity].
  eexists. split; [reflexivity |].
  cbn [TmpDir EventsLogFilePath StorageConfig StaticDir VolumePath OCIRuntime
       OCIRuntimes RuntimeSupportsJSON RuntimeSupportsNoCgroups InitPath
       InfraCommand InfraImage DetachKeys].
  destruct (GraphRoot opts =? "")%string; cbn [GraphRoot StoreRest];
    repeat split; try discriminate;
    repeat constructor; discriminate.
Qed.

End ConfigProperties.

(** X16. An error of [defaultTmpDir] ends [defaultConfigFromMemory].  It
    returns a nil configuration and that error; the storage options are
    not asked for, no warning is logged, and the process is left as
    [defaultTmpDir] left it. *)
Theorem defaultConfigFromMemory_tmpdir_error
    {W : Type} `{OS W} {R : Type} `{Storage W R} {S : Type} (boltdb : S)
    (vars : PackageVars) (st : State W) (path : string) (e : error) :
  fst (defaultTmpDir st) = (path, Some e) ->
  defaultConfigFromMemory (R := R) boltdb vars st =
    (((None, Some e), []), snd (defaultTmpDir st)).
Proof.
  intros HT.
  pose proof (defaultConfigFromMemory_cases boltdb vars st) as Hc.
  cbv zeta in Hc. rewrite HT in Hc. exact Hc.
Qed.

Lemma defaultConfigFromMemory_tmpdir_error_witness :
  defaultConfigFromMemory (R := unit) tt initial_vars (start Sim.bare) =
    (((None,
       Some (errorString "neither XDG_RUNTIME_DIR nor HOME was set non-empty")),
      []),
     snd (defaultTmpDir (start Sim.bare))).
Proof.
  refine (defaultConfigFromMemory_tmpdir_error tt initial_vars
            (start Sim.bare) "" _ _).
  reflexivity.
Defined.

(** X17. An error of [storage.DefaultStoreOptions] ends
    [defaultConfigFromMemory].  The options are asked for with the answers
    of [unshare.IsRootless] and [unshare.GetRootlessUID]; when that fails
    the result is a nil configuration and that error, unwrapped, although
    [defaultTmpDir] has already done its work. *)
Theorem defaultConfigFromMemory_storage_error
    {W : Type} `{OS W} {R : Type} `{Storage W R} {S : Type} (boltdb : S)
    (vars : PackageVars) (st : State W) (tmp : string) (w2 : W) (e : oserror) :
  fst (defaultTmpDir st) = (tmp, None) ->
  let w1 := world (snd (defaultTmpDir st)) in
  DefaultStoreOptions (R := R) w1 (IsRootless w1) (GetRootlessUID w1) =
    (w2, inr e) ->
  fst (defaultConfigFromMemory (R := R) boltdb vars st) =
    ((None, Some (External e)),
     [EvDefaultStoreOptions (IsRootless w1) (GetRootlessUID w1)]) /\
  world (snd (defaultConfigFromMemory (R := R) boltdb vars st)) = w2.
Proof.
  intros HT w1 HS.
  pose proof (defaultConfigFromMemory_cases boltdb vars st) as Hc.
  cbv zeta in Hc. rewrite HT in Hc. cbn [snd] in Hc. fold w1 in Hc.
  rewrite HS in Hc. cbn [fst snd] in Hc. destruct Hc as [Hw Hr].
  split; [exact Hr | exact Hw].
Qed.

Lemma defaultConfigFromMemory_storage_error_witness :
  fst (defaultConfigFromMemory (R := unit) tt initial_vars
         (start sim_root_broken)) =
    ((None,
      Some (External (PathError "open" "/etc/containers/storage.conf"
                                Sim.EACCES))),
     [EvDefaultStoreOptions false 0]) /\
  world (snd (defaultConfigFromMemory (R := unit) tt initial_vars
                (start sim_root_broken))) = sim_root_broken.
Proof.
  refine (defaultConfigFromMemory_storage_error tt initial_vars
            (start sim_root_broken) "/var/run/libpod" sim_root_broken
            (PathError "open" "/etc/containers/storage.conf" Sim.EACCES) _ _).
  - reflexivity.
  - reflexivity.
Defined.

(** X18. The configuration that is returned.  When [defaultTmpDir] and the
    storage options succeed, a configuration is returned with a nil error.
    Its [TmpDir] is the directory of [defaultTmpDir] and its events log is
    [events/events.log] under it.  An empty graph root in the storage
    options is replaced by [/var/lib/containers/storage], with one warning;
    otherwise the options are kept as they are and nothing is logged.
    [StaticDir] and [VolumePath] are [libpod] and [volumes] under the graph
    root the configuration holds.  The init path, infra command, infra
    image and detach keys are the values the package variables hold at the
    call. *)
Theorem defaultConfigFromMemory_success
    {W : Type} `{OS W} {R : Type} `{Storage W R} {S : Type} (boltdb : S)
    (vars : PackageVars) (st : State W) (tmp : string) (w2 : W)
    (opts : StoreOptions R) :
  fst (defaultTmpDir st) = (tmp, None) ->
  let w1 := world (snd (defaultTmpDir st)) in
  DefaultStoreOptions w1 (IsRootless w1) (GetRootlessUID w1) = (w2, inl opts) ->
  let unset := (GraphRoot opts =? "")%string in
  exists c,
    fst (defaultConfigFromMemory boltdb vars st) =
      ((Some c, None),
       EvDefaultStoreOptions (IsRootless w1) (GetRootlessUID w1) ::
       (if unset then
          [EvWarnf "Storage configuration is unset - using hardcoded default graph root %q"
                   [_defaultGraphRoot]]
        else [])) /\
    TmpDir c = tmp /\
    EventsLogFilePath c = filepath_Join [tmp; "events"; "events.log"] /\
    StorageConfig c =
      (if unset then mkStoreOptions _defaultGraphRoot (StoreRest opts)
       else opts) /\
    StaticDir c = filepath_Join [GraphRoot (StorageConfig c); "libpod"] /\
    VolumePath c = filepath_Join [GraphRoot (StorageConfig c); "volumes"] /\
    InitPath c = DefaultInitPath vars /\
    InfraCommand c = DefaultInfraCommand vars /\
    InfraImage c = DefaultInfraImage vars /\
    DetachKeys c = DefaultDetachKeys vars.
Proof.
  intros HT w1 HS unset.
  pose proof (defaultConfigFromMemory_cases boltdb vars st) as Hc.
  cbv zeta in Hc. rewrite HT in Hc. cbn [snd] in Hc. fold w1 in Hc.
  rewrite HS in Hc. cbn [fst snd] in Hc.
  destruct Hc as [_ [c [Hr [Ht [He [Hg [Hrest [Hs [Hv [_ [_ [_ Hvars]]]]]]]]]]]].
  exists c. fold unset in Hr, Hg.
  split; [exact Hr |]. split; [exact Ht |]. split; [exact He |].
  split; [| split; [exact Hs | split; [exact Hv | exact Hvars]]].
  destruct (StorageConfig c) as [g rest]. cbn [GraphRoot StoreRest] in Hg, Hrest.
  subst g rest. destruct unset; [reflexivity |]. now destruct opts.
Qed.

Lemma defaultConfigFromMemory_success_witness :
  exists c,
    fst (defaultConfigFromMemory (R := unit) tt initial_vars
           (start (sim_root ""))) =
      ((Some c, None),
       [EvDefaultStoreOptions false 0;
        EvWarnf "Storage configuration is unset - using hardcoded default graph root %q"
                [_defaultGraphRoot]]) /\
    TmpDir c = "/var/run/libpod" /\
    EventsLogFilePath c =
      filepath_Join ["/var/run/libpod"; "events"; "events.log"] /\
    StorageConfig c = mkStoreOptions _defaultGraphRoot tt /\
    StaticDir c = filepath_Join [GraphRoot (StorageConfig c); "libpod"] /\
    VolumePath c = filepath_Join [GraphRoot (StorageConfig c); "volumes"] /\
    InitPath c = DefaultInitPath initial_vars /\
    InfraCommand c = DefaultInfraCommand initial_vars /\
    InfraImage c = DefaultInfraImage initial_vars /\
    DetachKeys c = DefaultDetachKeys initial_vars.
Proof.
  refine (defaultConfigFromMemory_success tt initial_vars
            (start (sim_root "")) "/var/run/libpod" (sim_root "")
            (mkStoreOptions "" tt) _ _).
  - reflexivity.
  - reflexivity.
Defined.

(** X19. What every returned configuration satisfies.  The call returns
    either a configuration with a nil error or no configuration with an
    error.  In a configuration that is returned no path is empty ([TmpDir],
    the events log, the graph root, [StaticDir], [VolumePath]), the default
    runtime [runc] has an entry in [OCIRuntimes], and so has every runtime
    named in [RuntimeSupportsJSON] and [RuntimeSupportsNoCgroups]. *)
Theorem defaultConfigFromMemory_invariants
    {W : Type} `{OS W} {R : Type} `{Storage W R} {S : Type} (boltdb : S)
    (vars : PackageVars) (st : State W) :
  match fst (fst (defaultConfigFromMemory (R := R) boltdb vars st)) with
  | (Some c, None) =>
      TmpDir c <> "" /\ EventsLogFilePath c <> "" /\
      GraphRoot (StorageConfig c) <> "" /\
      StaticDir c <> "" /\ VolumePath c <> "" /\
      map_lookup (OCIRuntime c) (OCIRuntimes c) <> None /\
      Forall (fun n => map_lookup n (OCIRuntimes c) <> None)
             (RuntimeSupportsJSON c ++ RuntimeSupportsNoCgroups c)
  | (None, Some _) => True
  | _ => False
  end.
Proof.
  pose proof (defaultConfigFromMemory_cases boltdb vars st) as Hc.
  pose proof (defaultTmpDir_result_cases st) as [Hpath _].
  cbv zeta in Hc.
  destruct (snd (fst (defaultTmpDir st))) as [e |].
  - rewrite Hc. exact I.
  - destruct Hc as [_ Hc].
    destruct (snd (DefaultStoreOptions _ _ _)) as [opts | e].
    + destruct Hc as [c [Hr [Ht [He [Hg [_ [Hs [Hv [Ho [Hl [Hf _]]]]]]]]]]].
      rewrite Hr. cbn [fst].
      assert (Hsub : forall a b : string,
                 filepath_Join [a; b] = "" -> b = "").
      { intros a b Hj. destruct (String.eqb_spec b "") as [-> | Hb];
          [reflexivity |].
        exfalso. revert Hj.
        apply filepath_Join_nonempty, Exists_cons_tl, Exists_cons_hd.
        exact Hb. }
      split; [rewrite Ht; apply Hpath; reflexivity |].
      split; [rewrite He; apply filepath_Join_nonempty, Exists_cons_tl,
                Exists_cons_hd; discriminate |].
      split; [rewrite Hg; destruct (String.eqb_spec (GraphRoot opts) "");
                [discriminate | assumption] |].
      split; [rewrite Hs; intros Hj; apply Hsub in Hj; discriminate |].
      split; [rewrite Hv; intros Hj; apply Hsub in Hj; discriminate |].
      split; [rewrite Ho; exact Hl | exact Hf].
    + rewrite Hc. exact I.
Qed.

(** X20. The configuration of a process that is not rootless.  When the
    process is not rootless and the storage options can be read, [TmpDir] is
    [/var/run/libpod] and the events log is
    [/var/run/libpod/events/events.log]; the storage options are asked for
    with [rootless] false; the runtime directory is not resolved, and apart
    from the storage call the only calls made are the two questions
    [IsRootless] and the question [GetRootlessUID]. *)
Theorem defaultConfigFromMemory_not_rootless
    {W : Type} `{OS W} {R : Type} `{Storage W R} {S : Type} (boltdb : S)
    (vars : PackageVars) (st : State W) (w2 : W) (opts : StoreOptions R) :
  IsRootless (world st) = false ->
  DefaultStoreOptions (world st) false (GetRootlessUID (world st)) =
    (w2, inl opts) ->
  let r := defaultConfigFromMemory boltdb vars st in
  exists c log,
    fst r = ((Some c, None),
             EvDefaultStoreOptions false (GetRootlessUID (world st)) :: log) /\
    TmpDir c = "/var/run/libpod" /\
    EventsLogFilePath c = "/var/run/libpod/events/events.log" /\
    world (snd r) = w2 /\
    trace (snd r) =
      (trace st ++ [EvIsRootless; EvIsRootless; EvGetRootlessUID])%list /\
    rootlessRuntimeDirOnce (snd r) = rootlessRuntimeDirOnce st /\
    rootlessRuntimeDir (snd r) = rootlessRuntimeDir st.
Proof.
  intros Hroot HS r. subst r. destruct st as [w o d t].
  cbn [world] in Hroot, HS.
  run_cfg. run_tmp. rewrite Hroot. run_cfg. rewrite Hroot, HS. run_cfg.
  eexists. eexists. split; [reflexivity |].
  cbn [TmpDir EventsLogFilePath].
  repeat split. now rewrite <- !app_assoc.
Qed.

Lemma defaultConfigFromMemory_not_rootless_witness :
  let st := start (sim_root "/srv/containers") in
  let r := defaultConfigFromMemory (R := unit) tt initial_vars st in
  exists c log,
    fst r = ((Some c, None),
             EvDefaultStoreOptions false (GetRootlessUID (world st)) :: log) /\
    TmpDir c = "/var/run/libpod" /\
    EventsLogFilePath c = "/var/run/libpod/events/events.log" /\
    world (snd r) = sim_root "/srv/containers" /\
    trace (snd r) =
      (trace st ++ [EvIsRootless; EvIsRootless; EvGetRootlessUID])%list /\
    rootlessRuntimeDirOnce (snd r) = rootlessRuntimeDirOnce st /\
    rootlessRuntimeDir (snd r) = rootlessRuntimeDir st.
Proof.
  refine (defaultConfigFromMemory_not_rootless tt initial_vars
            (start (sim_root "/srv/containers")) (sim_root "/srv/containers")
            (mkStoreOptions "/srv/containers" tt) _ _).
  - reflexivity.
  - reflexivity.
Defined.
